(** * gresolutions: video modes of the connected outputs, through RandR

    A shallow embedding of [gresolutions.c]: the EDID decoder [parseedid],
    the refresh-rate computation [mode_refresh], the mode lookup
    [find_mode_by_xid], the per-output catalogue built by [activate] and
    the mode switch of [row_activated], followed by the properties proved
    about them.

    Conventions.
    - C integers are [Z]; a conversion between integer types is written
      out where the program performs one.
    - A [double] is an IEEE 754 binary64 value, [spec_float] with
      precision 53 and [emax] 1024; the operations are those of
      [SpecFloat], which round to nearest, ties to even.
    - An array is a [list]; a read or a write outside of it is a fault and
      is [None] in the [option] monad, as is the dereference of [NULL].
    - The X server is a record of finite maps; every Xlib request the
      program sends is also appended to a trace. *)

From stdpp Require Import base list gmap strings.
From Stdlib Require Import ZArith Lia Ascii HexadecimalString.
From Stdlib Require Import Floats.SpecFloat.

Local Open Scope Z_scope.

(* ================================================================= *)
(** * Part I: the program *)
(* ================================================================= *)

(** ** C scalars *)

(** [unsigned long] to the [gint] cell of a [G_TYPE_INT] column: the low
    32 bits, read as a signed number. *)
Definition int_of_ulong (v : Z) : Z :=
  let w := v mod 2 ^ 32 in
  if w <? 2 ^ 31 then w else w - 2 ^ 32.

(** [int] to [unsigned long] (64 bits), as in passing an [int] for an
    [RRMode] parameter. *)
Definition ulong_of_int (v : Z) : Z := v mod 2 ^ 64.

(** [int] to [unsigned int], the usual arithmetic conversion of the
    comparison [n < output_info->npreferred]. *)
Definition uint_of_int (v : Z) : Z := v mod 2 ^ 32.

(** ** Doubles *)

Definition double := spec_float.

Definition double_of_Z (z : Z) : double := binary_normalize 53 1024 z 0 false.
Definition dmul : double -> double -> double := SFmul 53 1024.
Definition ddiv : double -> double -> double := SFdiv 53 1024.

(** The truth value of a [double] in a condition: it compares unequal to
    zero (a NaN does). *)
Definition double_nonzero (d : double) : bool :=
  negb (SFeqb d (S754_zero false)).

(** The quotient [a / b]; [None] is a division by zero. *)
Definition checked_ddiv (a b : double) : option double :=
  if double_nonzero b then Some (ddiv a b) else None.

(** ** Loops *)

(** The values of [i] in [for (i = lo; i < hi; i += step)]. *)
Fixpoint range_step (fuel : nat) (i hi step : nat) : list nat :=
  match fuel with
  | O => []
  | S fuel' =>
      if (i <? hi)%nat then i :: range_step fuel' (i + step) hi step else []
  end.

(** A loop body run at each index in turn, threading the state; a fault
    in the body ends the run. *)
Fixpoint for_each {St : Type} (body : nat -> St -> option St)
    (indices : list nat) (s : St) : option St :=
  match indices with
  | [] => Some s
  | i :: rest =>
      match body i s with
      | Some s' => for_each body rest s'
      | None => None
      end
  end.

(** ** Arrays of [unsigned char] *)

(** [a[j] = v] *)
Definition store (a : list Z) (j : nat) (v : Z) : option (list Z) :=
  if decide (j < length a)%nat then Some (<[j := v]> a) else None.

(** The characters that [%s] prints from a [char] array: those before the
    first NUL. [None]: the array holds no NUL and the read runs past its
    end. *)
Fixpoint c_str (buf : list Z) : option (list Z) :=
  match buf with
  | [] => None
  | b :: rest => if b =? 0 then Some [] else (b ::.) <$> c_str rest
  end.

Definition string_of_uchars (l : list Z) : string :=
  String.string_of_list_ascii (map (fun b => Ascii.ascii_of_N (Z.to_N b)) l).

(** ** The EDID decoder, [parseedid] *)

(** The messages passed to [g_warning]. *)
Inductive Warning :=
  | ChecksumFailed     (* "edid checksum failed" *)
  | HeaderIncorrect.   (* "edid header incorrect. Probably not an edid" *)

Global Instance Warning_eq_dec : EqDecision Warning.
Proof. solve_decision. Defined.

(** [sum += edid[i]] on an [unsigned char] accumulator. *)
Definition checksum_step (edid : list Z) (i : nat) (sum : Z) : option Z :=
  b ← edid !! i; Some ((sum + b) mod 256).

(** The condition under which byte [i] of the header draws no warning. *)
Definition header_byte_ok (i : nat) (b : Z) : bool :=
  (((i =? 0)%nat || (i =? 7)%nat) && (b =? 0x00)) || (b =? 0xff).

Definition header_step (edid : list Z) (i : nat) (log : list Warning)
    : option (list Warning) :=
  b ← edid !! i;
  Some (if header_byte_ok i b then log else log ++ [HeaderIncorrect]).

(** The body of the loop over [j]: one byte of the name. *)
Definition copy_name_step (edid : list Z) (i j : nat) (modelname : list Z)
    : option (list Z) :=
  b ← edid !! (i + 5 + j)%nat;
  store modelname j (if b =? 0x0a then 0x00 else b).

(** The body of the loop over the descriptor blocks. *)
Definition descriptor_step (edid : list Z) (i : nat) (modelname : list Z)
    : option (list Z) :=
  b0 ← edid !! i;
  if b0 =? 0x00 then
    b3 ← edid !! (i + 3)%nat;
    if b3 =? 0xfc then for_each (copy_name_step edid i) (seq 0 13) modelname
    else Some modelname
  else Some modelname.

(** [for (i = 0x36; i < 0x7E; i += 0x12)] *)
Definition descriptor_offsets : list nat := range_step 0x7E 0x36 0x7E 0x12.

(** [parseedid(edid, modelname)]: the return value, the warnings in the
    order they are logged, and the buffer [modelname] afterwards. *)
Definition parseedid (edid modelname : list Z)
    : option (Z * list Warning * list Z) :=
  sum ← for_each (checksum_step edid) (seq 0 128) 0;
  let log := if sum =? 0 then [] else [ChecksumFailed] in
  log ← for_each (header_step edid) (seq 0 8) log;
  modelname ← for_each (descriptor_step edid) descriptor_offsets modelname;
  Some (0, log, modelname).

(** ** RandR data *)

Definition XID := Z.

(** From [X11/X.h], [X11/Xatom.h] and [X11/extensions/randr.h]. *)
Definition None_XID : XID := 0.
Definition CurrentTime : Z := 0.
Definition XA_INTEGER : Z := 19.
Definition RR_Rotate_0 : Z := 1.
Definition RR_Connected : Z := 0.
Definition RR_Disconnected : Z := 1.
Definition RR_Interlace : Z := 0x10.
Definition RR_DoubleScan : Z := 0x20.
Definition RRSetConfigSuccess : Z := 0.
Definition RRSetConfigFailed : Z := 3.

(** The fields of [XRRModeInfo] that the program reads. *)
Record XRRModeInfo := {
  mode_id : XID;
  mode_name : string;
  dotClock : Z;      (* unsigned long *)
  hTotal : Z;        (* unsigned int *)
  vTotal : Z;        (* unsigned int *)
  modeFlags : Z      (* unsigned long *)
}.

(** [modes] holds [nmode] identifiers. *)
Record XRROutputInfo := {
  output_name : string;
  connection : Z;
  crtc : XID;
  modes : list XID;
  npreferred : Z     (* int *)
}.

Record XRRCrtcInfo := {
  crtc_x : Z;
  crtc_y : Z;
  crtc_mode : XID;
  crtc_rotation : Z;
  crtc_outputs : list XID
}.

(** [res]: the outputs and the global mode table. *)
Record XRRScreenResources := {
  res_outputs : list XID;
  res_modes : list XRRModeInfo
}.

(** An output property as the server holds it. *)
Record Property := {
  prop_type : Z;
  prop_format : Z;
  prop_items : list Z
}.

(** ** The X server behind [dpy] *)

Record Server := {
  srv_outputs : gmap Z XRROutputInfo;
  srv_crtcs : gmap Z XRRCrtcInfo;
  srv_edid : gmap Z Property     (* the RR_PROPERTY_RANDR_EDID property *)
}.

Definition XRRGetOutputInfo (srv : Server) (output : XID)
    : option XRROutputInfo :=
  srv_outputs srv !! output.

Definition XRRGetCrtcInfo (srv : Server) (c : XID) : option XRRCrtcInfo :=
  srv_crtcs srv !! c.

(** The binding of an output once CRTC [c] drives exactly [outs]. *)
Definition rebind (c : XID) (outs : list XID) (o : XID) (oi : XRROutputInfo)
    : XRROutputInfo :=
  let bound (c' : XID) :=
    {| output_name := output_name oi; connection := connection oi;
       crtc := c'; modes := modes oi; npreferred := npreferred oi |} in
  if bool_decide (o ∈ outs) then bound c
  else if crtc oi =? c then bound None_XID
  else oi.

(** The commit of a CRTC configuration. A request that names no CRTC of
    the server is refused and changes nothing; an accepted one replaces the
    position, mode, rotation and output set of the CRTC by the request's.
    Other grounds of refusal are the server's own and are not modelled. *)
Definition XRRSetCrtcConfig (srv : Server) (c : XID) (timestamp x y : Z)
    (mode : XID) (rotation : Z) (outs : list XID) : Z * Server :=
  match srv_crtcs srv !! c with
  | None => (RRSetConfigFailed, srv)
  | Some _ =>
      (RRSetConfigSuccess,
       {| srv_outputs := map_imap (fun o oi => Some (rebind c outs o oi))
                                  (srv_outputs srv);
          srv_crtcs :=
            <[c := {| crtc_x := x; crtc_y := y; crtc_mode := mode;
                      crtc_rotation := rotation; crtc_outputs := outs |}]>
              (srv_crtcs srv);
          srv_edid := srv_edid srv |})
  end.

(** [XRRGetOutputProperty(dpy, output, edid, 0, 128, False, False,
    AnyPropertyType, ...)]: the type, the format and the items returned, at
    most [4 * 128] bytes of the value. An output without the property
    answers with type [None] and no item. *)
Definition XRRGetOutputProperty (srv : Server) (output : XID) : Property :=
  match srv_edid srv !! output with
  | Some p =>
      {| prop_type := prop_type p; prop_format := prop_format p;
         prop_items := take (4 * 128) (prop_items p) |}
  | None => {| prop_type := None_XID; prop_format := 0; prop_items := [] |}
  end.

(** [output_edid_get(output, &length)]: [None] is the [NULL] result. *)
Definition output_edid_get (srv : Server) (output : XID) : option (list Z) :=
  let p := XRRGetOutputProperty srv output in
  if (prop_type p =? XA_INTEGER)
     && (1 <=? Z.of_nat (length (prop_items p)))
     && (prop_format p =? 8)
  then Some (prop_items p)
  else None.

(** ** [find_mode_by_xid] *)

Fixpoint find_mode (table : list XRRModeInfo) (xid : XID)
    : option XRRModeInfo :=
  match table with
  | [] => None
  | mode :: rest => if xid =? mode_id mode then Some mode else find_mode rest xid
  end.

Definition find_mode_by_xid (res : XRRScreenResources) (xid : XID)
    : option XRRModeInfo :=
  find_mode (res_modes res) xid.

(** ** [mode_refresh] *)

(** The local [vTotal] when the test of [hTotal && vTotal] is reached. *)
Definition effective_vTotal (mode_info : XRRModeInfo) : double :=
  let v := double_of_Z (vTotal mode_info) in
  let v :=
    if Z.land (modeFlags mode_info) RR_DoubleScan =? 0 then v
    else dmul v (double_of_Z 2) in
  if Z.land (modeFlags mode_info) RR_Interlace =? 0 then v
  else ddiv v (double_of_Z 2).

Definition mode_refresh (mode_info : XRRModeInfo) : option double :=
  let v := effective_vTotal mode_info in
  if negb (hTotal mode_info =? 0) && double_nonzero v then
    checked_ddiv (double_of_Z (dotClock mode_info))
                 (dmul (double_of_Z (hTotal mode_info)) v)
  else Some (double_of_Z 0).

(** ** The catalogue of an output, in [activate] *)

(** [asprintf(&name, fmt)] with no argument after the format: the text
    printed. Outside of conversion specifications the characters are
    copied, and ["%%"] prints one ["%"]; any other conversion
    specification, and a ["%"] that ends the format, takes an argument that
    was not passed, which is undefined: [None]. *)
Fixpoint asprintf_no_args (fmt : string) : option string :=
  match fmt with
  | EmptyString => Some EmptyString
  | String c rest =>
      if Ascii.eqb c "%"%char then
        match rest with
        | String c' rest' =>
            if Ascii.eqb c' "%"%char then String "%"%char <$> asprintf_no_args rest'
            else None
        | EmptyString => None
        end
      else String c <$> asprintf_no_args rest
  end.

(** A row of the list store. The two numeric cells hold the value that
    [asprintf] renders with ["%6.2fHz"] and ["%6.3fMHz"]; the rendering of
    a [double] as decimal text is not modelled. *)
Record Row := {
  XID_COLUMN : Z;
  XID_STRING_COLUMN : string;
  NAME_COLUMN : string;
  REFRESH_COLUMN : double;
  PIXCLOCK_COLUMN : double;
  PREFERRED_COLUMN : bool
}.

(** ["0x%x"] applied to an [unsigned long]: its low 32 bits. *)
Definition xid_string (xid : XID) : string :=
  "0x" +:+ NilZero.string_of_uint (N.to_hex_uint (Z.to_N (xid mod 2 ^ 32))).

(** The body of the loop over [n]; an identifier that
    [find_mode_by_xid] does not resolve appends nothing. The name of the
    mode is the format of [asprintf(&name, mode_info->name)]. *)
Definition catalog_step (res : XRRScreenResources)
    (output_info : XRROutputInfo) (n : nat) (list_store : list Row)
    : option (list Row) :=
  xid ← modes output_info !! n;
  match find_mode_by_xid res xid with
  | None => Some list_store
  | Some mode_info =>
      name ← asprintf_no_args (mode_name mode_info);
      refresh ← mode_refresh mode_info;
      Some (list_store ++
        [{| XID_COLUMN := int_of_ulong xid;
            XID_STRING_COLUMN := xid_string xid;
            NAME_COLUMN := name;
            REFRESH_COLUMN := refresh;
            PIXCLOCK_COLUMN :=
              ddiv (double_of_Z (dotClock mode_info)) (double_of_Z 1000000);
            PREFERRED_COLUMN :=
              Z.of_nat n <? uint_of_int (npreferred output_info) |}])
  end.

Definition build_catalog (res : XRRScreenResources)
    (output_info : XRROutputInfo) : option (list Row) :=
  for_each (catalog_step res output_info)
           (seq 0 (length (modes output_info))) [].

(** [char modelname[13] = ""] *)
Definition empty_modelname : list Z := replicate 13 0.

(** The warnings logged and the buffer [modelname] when the loop over the
    modes is reached. *)
Definition output_modelname (srv : Server) (output : XID)
    : option (list Warning * list Z) :=
  match output_edid_get srv output with
  | Some edid =>
      '(_, log, modelname) ← parseedid edid empty_modelname;
      Some (log, modelname)
  | None => Some ([], empty_modelname)
  end.

(** A page of the notebook: its label, the rows of its tree view and the
    output its [row-activated] handler is connected with. *)
Record Page := {
  page_label : string;
  page_rows : list Row;
  page_user_data : XID
}.

(** One turn of the loop over [res->outputs]: no page when the output
    is passed over by [continue]. *)
Definition activate_output (srv : Server) (res : XRRScreenResources)
    (output : XID) : option (list Warning * option Page) :=
  output_info ← XRRGetOutputInfo srv output;
  if connection output_info =? RR_Disconnected then Some ([], None)
  else if crtc output_info =? None_XID then Some ([], None)
  else
    match XRRGetCrtcInfo srv (crtc output_info) with
    | None => Some ([], None)
    | Some _ =>
        '(log, modelname) ← output_modelname srv output;
        rows ← build_catalog res output_info;
        name ← c_str modelname;
        Some (log,
              Some {| page_label :=
                        output_name output_info +:+ "(" +:+
                        string_of_uchars name +:+ ")";
                      page_rows := rows;
                      page_user_data := output |})
    end.

(** [activate]: the warnings logged and the pages of the notebook. *)
Fixpoint activate_outputs (srv : Server) (res : XRRScreenResources)
    (outs : list XID) : option (list Warning * list Page) :=
  match outs with
  | [] => Some ([], [])
  | output :: rest =>
      '(log, page) ← activate_output srv res output;
      '(log', pages) ← activate_outputs srv res rest;
      Some (log ++ log', option_list page ++ pages)
  end.

Definition activate (srv : Server) (res : XRRScreenResources)
    : option (list Warning * list Page) :=
  activate_outputs srv res (res_outputs res).

(** ** The mode switch, [row_activated] *)

(** The Xlib requests of [row_activated]. *)
Inductive XCall :=
  | CallGetOutputInfo (output : XID)
  | CallSetCrtcConfig (c : XID) (timestamp x y : Z) (mode : XID)
      (rotation : Z) (outs : list XID).

Record World := {
  server : Server;
  calls : list XCall
}.

(** [row_activated(tree_view, path, column, user_data)], where [model] is
    the list store of [tree_view] and [user_data] points to the output of
    the page. A [path] that names no row leaves everything as it is. *)
Definition row_activated (w : World) (model : list Row) (path : nat)
    (user_data : XID) : option World :=
  match model !! path with
  | None => Some w
  | Some row =>
      output_info ← XRRGetOutputInfo (server w) user_data;
      let xid := XID_COLUMN row in
      let mode := ulong_of_int xid in
      let '(_, srv') :=
        XRRSetCrtcConfig (server w) (crtc output_info) CurrentTime 0 0
                         mode RR_Rotate_0 [user_data] in
      Some {| server := srv';
              calls := calls w ++
                [CallGetOutputInfo user_data;
                 CallSetCrtcConfig (crtc output_info) CurrentTime 0 0
                                   mode RR_Rotate_0 [user_data]] |}
  end.

(* ================================================================= *)
(** * The specification's reading, and sample inputs *)
(* ================================================================= *)

(** ** The refresh rate as the specification words it *)

(** The effective vertical total: [v_total], doubled first when doublescan
    is set, then halved when interlace is set. *)
Definition spec_effective_v_total (v_total : Z) (doublescan interlace : bool)
    : double :=
  let v := double_of_Z v_total in
  let v := if doublescan then dmul v (double_of_Z 2) else v in
  if interlace then ddiv v (double_of_Z 2) else v.

(** [pixel_clock_hz / (h_total * effective_v_total)] *)
Definition spec_refresh_hz (pixel_clock_hz h_total v_total : Z)
    (doublescan interlace : bool) : double :=
  ddiv (double_of_Z pixel_clock_hz)
       (dmul (double_of_Z h_total)
             (spec_effective_v_total v_total doublescan interlace)).

Definition flag_set (flags bit : Z) : bool := negb (Z.land flags bit =? 0).

(** 1920x1080 at 148.5 MHz, progressive. *)
Definition mode_1080p : XRRModeInfo :=
  {| mode_id := 0x47; mode_name := "1920x1080"; dotClock := 148500000;
     hTotal := 2200; vTotal := 1125; modeFlags := 0x5 |}.

(** 1920x1080 interlaced at 74.25 MHz. *)
Definition mode_1080i : XRRModeInfo :=
  {| mode_id := 0x48; mode_name := "1920x1080i"; dotClock := 74250000;
     hTotal := 2200; vTotal := 1125; modeFlags := 0x15 |}.

(** A mode without a vertical total. *)
Definition mode_v0 : XRRModeInfo :=
  {| mode_id := 0x49; mode_name := "void"; dotClock := 25175000;
     hTotal := 800; vTotal := 0; modeFlags := 0x30 |}.

(** ** The identification block *)

(** The descriptor at offset [i] passes the two tests of
    [descriptor_step]: its first byte is 0x00 and its byte 3 is 0xFC. *)
Definition is_name_descriptor (edid : list Z) (i : nat) : Prop :=
  edid !! i = Some 0x00 ∧ edid !! (i + 3)%nat = Some 0xfc.

Global Instance is_name_descriptor_dec edid i :
  Decision (is_name_descriptor edid i).
Proof. unfold is_name_descriptor. apply _. Defined.

(** The 13 bytes that start 5 bytes into the descriptor at [i]. *)
Definition name_field (edid : list Z) (i : nat) : list Z :=
  take 13 (drop (i + 5) edid).

Definition lf_to_nul (b : Z) : Z := if b =? 0x0a then 0x00 else b.

(** The name field with every line feed turned into a NUL. *)
Definition name_bytes (edid : list Z) (i : nat) : list Z :=
  lf_to_nul <$> name_field edid i.



Definition byte_sum (l : list Z) : Z := foldr Z.add 0 l.

(** The model name shown in the label of a page whose output has the
    identification block [edid]. *)
Definition decoded_name (edid : list Z) : option (list Z) :=
  '(_, _, modelname) ← parseedid edid empty_modelname; c_str modelname.

(** The positions of the header that deviate from 00 FF FF FF FF FF FF 00. *)
Definition header_pattern : list Z :=
  [0x00; 0xff; 0xff; 0xff; 0xff; 0xff; 0xff; 0x00].

Definition header_deviates (edid : list Z) : Prop :=
  take 8 edid ≠ header_pattern.

(** What the scan of the descriptors leaves in a buffer [buf]: the name
    bytes of the last descriptor that passes the two tests, or [buf]. *)
Definition scanned_name (edid buf : list Z) : list Z :=
  from_option (name_bytes edid) buf
    (last (filter (is_name_descriptor edid) descriptor_offsets)).

(** ** The decoder as the specification words it *)


(** A non-timing descriptor, first two bytes 0x00 0x00, with the tag
    0xFC. *)
Definition spec_is_name_descriptor (edid : list Z) (i : nat) : Prop :=
  edid !! i = Some 0x00 ∧ edid !! (i + 1)%nat = Some 0x00
  ∧ edid !! (i + 3)%nat = Some 0xfc.

Global Instance spec_is_name_descriptor_dec edid i :
  Decision (spec_is_name_descriptor edid i).
Proof. unfold spec_is_name_descriptor. apply _. Defined.



(** ** Sample identification blocks *)

Definition pad (n : nat) (l : list Z) : list Z := take n (l ++ replicate n 0).

(** A base block from its header and its four descriptors; the last byte
    makes the bytes sum to zero modulo 256. *)
Definition edid_block (header d1 d2 d3 d4 : list Z) : list Z :=
  let body := pad 8 header ++ replicate 46 0 ++ pad 18 d1 ++ pad 18 d2
              ++ pad 18 d3 ++ pad 18 d4 ++ [0] in
  body ++ [(- byte_sum body) mod 256].

(** A display descriptor with tag 0xFC: the text, a line feed, spaces. *)
Definition name_descriptor (text : list Z) : list Z :=
  [0x00; 0x00; 0x00; 0xfc; 0x00] ++ take 13 (text ++ [0x0a] ++ replicate 12 0x20).

(** The name "ABC" in the first descriptor. *)
Definition edid_ABC : list Z :=
  edid_block header_pattern (name_descriptor [65; 66; 67]) [] [] [].



(** Two name descriptors, "AAA" and then "BB". *)
Definition edid_two_names : list Z :=
  edid_block header_pattern (name_descriptor [65; 65; 65])
             (name_descriptor [66; 66]) [] [].

(** A name of 13 letters, "ABCDEFGHIJKLM": no room for a line feed. *)
Definition edid_long_name : list Z :=
  edid_block header_pattern
    (name_descriptor [65; 66; 67; 68; 69; 70; 71; 72; 73; 74; 75; 76; 77])
    [] [] [].

(** The header FF FF FF FF FF FF FF 00. *)
Definition edid_ff_header : list Z :=
  edid_block [0xff; 0xff; 0xff; 0xff; 0xff; 0xff; 0xff; 0x00]
             (name_descriptor [65; 66; 67]) [] [] [].

(** The block of 128 zero bytes. *)
Definition edid_zeros : list Z := replicate 128 0.


(** ** The catalogue as the specification words it *)

(** The advertised identifiers that resolve in the global mode table, in
    advertised order, each with its position in the advertised list and the
    mode it resolves to; [k] is the position of the head of [ids]. *)
Fixpoint resolved_from (res : XRRScreenResources) (k : nat) (ids : list XID)
    : list (nat * XID * XRRModeInfo) :=
  match ids with
  | [] => []
  | xid :: rest =>
      match find_mode_by_xid res xid with
      | Some mode_info => (k, xid, mode_info) :: resolved_from res (S k) rest
      | None => resolved_from res (S k) rest
      end
  end.

(** A row presents the identifier at position [n] of an output whose
    preferred-count is [preferred_count]. *)
Definition row_presents (preferred_count : Z) (row : Row)
    (entry : nat * XID * XRRModeInfo) : Prop :=
  let '(n, xid, mode_info) := entry in
  XID_COLUMN row = int_of_ulong xid
  ∧ XID_STRING_COLUMN row = xid_string xid
  ∧ asprintf_no_args (mode_name mode_info) = Some (NAME_COLUMN row)
  ∧ mode_refresh mode_info = Some (REFRESH_COLUMN row)
  ∧ (PREFERRED_COLUMN row = true <-> Z.of_nat n < preferred_count).

(** A name holds no conversion specification: each ["%"] in it is one of
    a pair ["%%"]. *)
Fixpoint no_conversion (name : string) : bool :=
  match name with
  | EmptyString => true
  | String c rest =>
      if Ascii.eqb c "%"%char then
        match rest with
        | String c' rest' => Ascii.eqb c' "%"%char && no_conversion rest'
        | EmptyString => false
        end
      else no_conversion rest
  end.

(** A name without any ["%"]. *)
Fixpoint percent_free (name : string) : bool :=
  match name with
  | EmptyString => true
  | String c rest => negb (Ascii.eqb c "%"%char) && percent_free rest
  end.

(** The totals of a mode are [unsigned int] values. *)
Definition mode_in_range (mode_info : XRRModeInfo) : Prop :=
  (0 <= hTotal mode_info < 2 ^ 32) ∧ (0 <= vTotal mode_info < 2 ^ 32).

(** A mode whose totals are [unsigned int] values and whose name holds no
    conversion specification. *)
Definition mode_well_formed (mode_info : XRRModeInfo) : Prop :=
  mode_in_range mode_info ∧ no_conversion (mode_name mode_info) = true.

(** ** A sample server *)

Definition sample_res : XRRScreenResources :=
  {| res_outputs := [66; 67; 68];
     res_modes := [mode_1080p; mode_1080i; mode_v0] |}.

(** Output 66 advertises four identifiers, of which 0x99 is in no table,
    and prefers the first two. *)
Definition sample_output_66 : XRROutputInfo :=
  {| output_name := "HDMI-1"; connection := RR_Connected; crtc := 63;
     modes := [0x47; 0x99; 0x48; 0x49]; npreferred := 2 |}.

(** Output 66 is driven, with its clone 68, by CRTC 63, placed at
    (1920, 0) and rotated by 90 degrees. Output 67 is connected and has no
    CRTC. *)
Definition sample_server : Server :=
  {| srv_outputs :=
       <[66 := sample_output_66]>
       (<[67 := {| output_name := "DP-1"; connection := RR_Connected;
                   crtc := None_XID; modes := [0x47]; npreferred := 1 |}]>
       {[68 := {| output_name := "HDMI-2"; connection := RR_Connected;
                  crtc := 63; modes := [0x47]; npreferred := 1 |}]});
     srv_crtcs :=
       {[63 := {| crtc_x := 1920; crtc_y := 0; crtc_mode := 0x47;
                  crtc_rotation := 2; crtc_outputs := [66; 68] |}]};
     srv_edid :=
       {[66 := {| prop_type := XA_INTEGER; prop_format := 8;
                  prop_items := edid_ABC |}]} |}.

Definition sample_world : World :=
  {| server := sample_server; calls := [] |}.

(** The rows of the page of output 66. *)
Definition sample_rows : list Row :=
  default [] (build_catalog sample_res sample_output_66).

(** ** Further notions *)

(** The tests that an output passes before [activate] makes its page: it
    is not disconnected, its CRTC field is set, and [XRRGetCrtcInfo]
    answers for that CRTC. *)
Definition has_page (srv : Server) (output : XID) : bool :=
  match XRRGetOutputInfo srv output with
  | Some output_info =>
      negb (connection output_info =? RR_Disconnected)
      && negb (crtc output_info =? None_XID)
      && bool_decide (is_Some (XRRGetCrtcInfo srv (crtc output_info)))
  | None => false
  end.

(** A value of [unsigned char]. *)
Definition is_uchar (b : Z) : Prop := 0 <= b < 256.

(** A connected output whose identification property is 64 bytes long. *)
Definition short_edid_server : Server :=
  {| srv_outputs := {[66 := sample_output_66]};
     srv_crtcs := srv_crtcs sample_server;
     srv_edid :=
       {[66 := {| prop_type := XA_INTEGER; prop_format := 8;
                  prop_items := take 64 edid_ABC |}]} |}.

(** Output 70 is neither connected nor disconnected: its connection is
    [RR_UnknownConnection]. *)
Definition unknown_connection_server : Server :=
  {| srv_outputs :=
       {[70 := {| output_name := "VGA-1"; connection := 2; crtc := 63;
                  modes := [0x47]; npreferred := 0 |}]};
     srv_crtcs := srv_crtcs sample_server;
     srv_edid := ∅ |}.

(** The double with the mantissa of [d] and its exponent moved by [k]:
    [d] times [2^k], exactly. *)
Definition double_scale (k : Z) (d : double) : double :=
  match d with
  | S754_finite s m e => S754_finite s m (e + k)
  | _ => d
  end.

(** A mode whose name ends in a doubled per cent sign, and a mode whose
    name is a conversion specification. *)
Definition mode_half : XRRModeInfo :=
  {| mode_id := 0x60; mode_name := "scale50%%"; dotClock := 25175000;
     hTotal := 800; vTotal := 525; modeFlags := 0 |}.

Definition mode_format : XRRModeInfo :=
  {| mode_id := 0x61; mode_name := "%s"; dotClock := 25175000;
     hTotal := 800; vTotal := 525; modeFlags := 0 |}.

Definition format_res : XRRScreenResources :=
  {| res_outputs := [66]; res_modes := [mode_half; mode_format] |}.

Definition output_half : XRROutputInfo :=
  {| output_name := "HDMI-1"; connection := RR_Connected; crtc := 63;
     modes := [0x60]; npreferred := 1 |}.

Definition output_format : XRROutputInfo :=
  {| output_name := "HDMI-1"; connection := RR_Connected; crtc := 63;
     modes := [0x60; 0x61]; npreferred := 1 |}.

(* ================================================================= *)
(** * Part II: properties *)
(* ================================================================= *)

(** ** Binary64 arithmetic on the values [mode_refresh] meets *)

Lemma digits2_pos_size p : digits2_pos p = Pos.size p.
Proof. induction p; simpl; congruence. Qed.

Lemma digits2_pos_bounds p :
  2 ^ (Z.pos (digits2_pos p) - 1) <= Z.pos p < 2 ^ Z.pos (digits2_pos p).
Proof.
  rewrite digits2_pos_size.
  pose proof (Pos.size_gt p) as Hgt. pose proof (Pos.size_le p) as Hle.
  apply Pos2Z.pos_lt_pos in Hgt. apply Pos2Z.pos_le_pos in Hle.
  rewrite Pos2Z.inj_pow in Hgt, Hle.
  change (Z.pos 2) with 2 in Hle.
  change (Z.pos p~0) with (2 * Z.pos p) in Hle.
  assert (Hs : 2 ^ Z.pos (Pos.size p) = 2 * 2 ^ (Z.pos (Pos.size p) - 1)).
  { rewrite <- Z.pow_succ_r by lia. f_equal. lia. }
  rewrite Hs in Hle. split; [lia | exact Hgt].
Qed.

Lemma digits2_pos_iter_xO m k :
  digits2_pos (Pos.iter xO m k) = (digits2_pos m + k)%positive.
Proof.
  induction k using Pos.peano_ind.
  - simpl. lia.
  - rewrite Pos.iter_succ. simpl. rewrite IHk. lia.
Qed.

Lemma iter_pos_shr_1_xO k : forall m,
  iter_pos shr_1 k (Build_shr_record (Z.pos (Pos.iter xO m k)) false false)
  = Build_shr_record (Z.pos m) false false.
Proof.
  induction k as [k IH|k IH|]; intros m; simpl.
  - rewrite IH. apply IH.
  - rewrite IH. apply IH.
  - reflexivity.
Qed.

Lemma fexp_53 e : -1021 <= e -> fexp 53 1024 e = e - 53.
Proof. unfold fexp, emin. lia. Qed.

Lemma binary_round_aux_shift s m k e :
  digits2_pos m = 53%positive -> -1074 <= e + Z.pos k <= 971 ->
  binary_round_aux 53 1024 s (Z.pos (Pos.iter xO m k)) e loc_Exact
  = S754_finite s m (e + Z.pos k).
Proof.
  intros Hm He. unfold binary_round_aux, shr_fexp. simpl Zdigits2.
  rewrite digits2_pos_iter_xO, Hm.
  rewrite fexp_53 by lia.
  replace (Z.pos (53 + k) + e - 53 - e) with (Z.pos k) by lia.
  simpl shr. rewrite iter_pos_shr_1_xO. simpl.
  rewrite Hm. rewrite fexp_53 by lia.
  replace (53 + (e + Z.pos k) - 53 - (e + Z.pos k)) with 0 by lia.
  simpl. change (1024 - 53) with 971.
  destruct (Z.leb_spec (e + Z.pos k) 971); [reflexivity | lia].
Qed.

Lemma binary_round_aux_canonical s m e :
  digits2_pos m = 53%positive -> -1074 <= e <= 971 ->
  binary_round_aux 53 1024 s (Z.pos m) e loc_Exact = S754_finite s m e.
Proof.
  intros Hm He. unfold binary_round_aux, shr_fexp. simpl Zdigits2.
  rewrite Hm. rewrite fexp_53 by lia.
  replace (53 + e - 53 - e) with 0 by lia.
  simpl. rewrite Hm. rewrite fexp_53 by lia.
  replace (53 + e - 53 - e) with 0 by lia.
  simpl. change (1024 - 53) with 971.
  destruct (Z.leb_spec e 971); [reflexivity | lia].
Qed.

Lemma double_of_Z_pos_spec p :
  (digits2_pos p <= 53)%positive ->
  double_of_Z (Z.pos p) =
    S754_finite false
      (match (53 - Z.pos (digits2_pos p))%Z with Z.pos k => Pos.iter xO p k | _ => p end)
      (Z.pos (digits2_pos p) - 53).
Proof.
  intros Hd. unfold double_of_Z, binary_normalize, binary_round.
  rewrite fexp_53 by lia. unfold shl_align.
  destruct (Z.pos (digits2_pos p) + 0 - 53 - 0) as [|q|q] eqn:E; try lia.
  - replace (53 - Z.pos (digits2_pos p)) with 0 by lia.
    rewrite binary_round_aux_canonical; [f_equal; lia | lia | lia].
  - replace (53 - Z.pos (digits2_pos p)) with (Z.pos q) by lia.
    pose proof (digits2_pos_iter_xO p q) as Hq.
    rewrite binary_round_aux_canonical; [reflexivity | lia | lia].
Qed.

Lemma dmul_two s m e :
  digits2_pos m = 53%positive -> -1075 <= e <= 970 ->
  dmul (S754_finite s m e) (double_of_Z 2) = S754_finite s m (e + 1).
Proof.
  intros Hm He. change (double_of_Z 2) with (S754_finite false 4503599627370496 (-51)).
  unfold dmul, SFmul. rewrite Pos.mul_comm.
  change (4503599627370496 * m)%positive with (Pos.iter xO m 52).
  rewrite binary_round_aux_shift by (auto; lia).
  destruct s; f_equal; lia.
Qed.

Lemma SFdiv_core_binary_two m e :
  digits2_pos m = 53%positive -> -1072 <= e ->
  SFdiv_core_binary 53 1024 (Z.pos m) e 4503599627370496 (-51)
  = (Z.pos m~0, e - 2, loc_Exact).
Proof.
  intros Hm He. unfold SFdiv_core_binary, Zdigits2.
  rewrite Hm. change (digits2_pos 4503599627370496) with 53%positive.
  rewrite fexp_53 by lia.
  replace (Z.min (53 + e - (53 + -51) - 53) (e - -51)) with (e - 2) by lia.
  replace (e - -51 - (e - 2)) with 53 by lia.
  replace (Z.shiftl (Z.pos m) 53) with (Z.pos m~0 * 4503599627370496).
  2:{ rewrite Z.shiftl_mul_pow2 by lia. change (2 ^ 53) with (2 * 4503599627370496).
      change (Z.pos m~0) with (2 * Z.pos m). lia. }
  assert (Hdiv : Z.div_eucl (Z.pos m~0 * 4503599627370496) 4503599627370496 = (Z.pos m~0, 0)).
  { pose proof (Z.div_eucl_eq (Z.pos m~0 * 4503599627370496) 4503599627370496 ltac:(lia)) as Heq.
    pose proof (Z.mod_pos_bound (Z.pos m~0 * 4503599627370496) 4503599627370496 ltac:(lia)) as Hb.
    unfold Z.modulo in Hb.
    destruct (Z.div_eucl (Z.pos m~0 * 4503599627370496) 4503599627370496) as [q r].
    f_equal; lia. }
  rewrite Hdiv. reflexivity.
Qed.

Lemma ddiv_two s m e :
  digits2_pos m = 53%positive -> -1072 <= e <= 970 ->
  ddiv (S754_finite s m e) (double_of_Z 2) = S754_finite s m (e - 1).
Proof.
  intros Hm He. change (double_of_Z 2) with (S754_finite false 4503599627370496 (-51)).
  unfold ddiv, SFdiv. rewrite SFdiv_core_binary_two by (auto; lia).
  change (m~0)%positive with (Pos.iter xO m 1).
  rewrite binary_round_aux_shift by (auto; lia).
  destruct s; f_equal; lia.
Qed.

Lemma shr_1_m r : 0 <= shr_m r -> shr_m (shr_1 r) = shr_m r / 2.
Proof.
  destruct r as [m b c]. simpl shr_m at 1 3. intros Hm.
  destruct m as [|[p|p|]|p]; unfold shr_1, shr_m.
  - reflexivity.
  - apply Z.div_unique with 1; lia.
  - apply Z.div_unique with 0; lia.
  - reflexivity.
  - lia.
Qed.

Lemma iter_pos_shr_1_m k : forall r, 0 <= shr_m r ->
  shr_m (iter_pos shr_1 k r) = shr_m r / 2 ^ Z.pos k.
Proof.
  induction k as [k IH|k IH|]; intros r Hr; simpl iter_pos.
  - assert (H1 : 0 <= shr_m (shr_1 r)) by (rewrite shr_1_m by lia; apply Z.div_pos; lia).
    assert (H2 : 0 <= shr_m (iter_pos shr_1 k (shr_1 r))).
    { rewrite IH by lia. apply Z.div_pos; [lia | apply Z.pow_pos_nonneg; lia]. }
    rewrite IH, IH, shr_1_m by lia.
    rewrite !Z.div_div by (try lia; apply Z.pow_pos_nonneg; lia).
    f_equal.
    replace (Z.pos k~1) with (1 + Z.pos k + Z.pos k) by lia.
    rewrite !Z.pow_add_r by lia. lia.
  - assert (H2 : 0 <= shr_m (iter_pos shr_1 k r)).
    { rewrite IH by lia. apply Z.div_pos; [lia | apply Z.pow_pos_nonneg; lia]. }
    rewrite IH, IH by lia.
    rewrite !Z.div_div by (try lia; apply Z.pow_pos_nonneg; lia).
    f_equal.
    replace (Z.pos k~0) with (Z.pos k + Z.pos k) by lia.
    rewrite !Z.pow_add_r by lia. lia.
  - rewrite shr_1_m by lia. reflexivity.
Qed.

Lemma shr_fexp_pos q e l :
  -1074 <= e ->
  0 < shr_m (fst (shr_fexp 53 1024 (Z.pos q) e l)) /\ -1074 <= snd (shr_fexp 53 1024 (Z.pos q) e l).
Proof.
  intros He. unfold shr_fexp, shr. simpl Zdigits2.
  assert (Hrec : shr_m (shr_record_of_loc (Z.pos q) l) = Z.pos q)
    by (destruct l as [|[]]; reflexivity).
  destruct (fexp 53 1024 (Z.pos (digits2_pos q) + e) - e) as [|k|k] eqn:E; simpl.
  - rewrite Hrec. lia.
  - rewrite iter_pos_shr_1_m, Hrec by lia. split; [|lia].
    pose proof (digits2_pos_bounds q) as [Hlo _].
    assert (Hk : Z.pos k <= Z.pos (digits2_pos q) - 1) by (unfold fexp, emin in E; lia).
    assert (2 ^ Z.pos k <= Z.pos q).
    { etransitivity; [|exact Hlo]. apply Z.pow_le_mono_r; lia. }
    apply Z.div_str_pos. split; [apply Z.pow_pos_nonneg; lia | lia].
  - rewrite Hrec. lia.
Qed.

Lemma binary_round_aux_nonzero s q e l :
  -1074 <= e ->
  double_nonzero (binary_round_aux 53 1024 s (Z.pos q) e l) = true.
Proof.
  intros He. unfold binary_round_aux.
  pose proof (shr_fexp_pos q e l He) as [H1 H2].
  destruct (shr_fexp 53 1024 (Z.pos q) e l) as [mrs' e']. simpl in H1, H2.
  set (mx := round_nearest_even (shr_m mrs') (loc_of_shr_record mrs')).
  assert (Hmx : 0 < mx).
  { unfold mx, round_nearest_even.
    destruct (loc_of_shr_record mrs') as [|[]]; try lia.
    destruct (Z.even (shr_m mrs')); lia. }
  destruct mx as [|q'|q'] eqn:Eq; try lia.
  pose proof (shr_fexp_pos q' e' loc_Exact H2) as [H3 H4].
  destruct (shr_fexp 53 1024 (Z.pos q') e' loc_Exact) as [mrs'' e'']. simpl in H3, H4.
  destruct (shr_m mrs'') as [|q''|q'']; try lia.
  destruct (e'' <=? 1024 - 53); destruct s; reflexivity.
Qed.

Lemma dmul_finite_nonzero s1 m1 e1 s2 m2 e2 :
  -1074 <= e1 + e2 ->
  double_nonzero (dmul (S754_finite s1 m1 e1) (S754_finite s2 m2 e2)) = true.
Proof. intros He. apply binary_round_aux_nonzero. exact He. Qed.

Lemma double_of_Z_normal v :
  0 < v < 2 ^ 53 ->
  exists m e, double_of_Z v = S754_finite false m e
              /\ digits2_pos m = 53%positive /\ -52 <= e <= 0.
Proof.
  intros Hv. destruct v as [|p|p]; try lia.
  pose proof (digits2_pos_bounds p) as [Hlo Hhi].
  assert (Hd : Z.pos (digits2_pos p) <= 53).
  { destruct (Z.le_gt_cases (Z.pos (digits2_pos p)) 53) as [|Hgt]; [assumption|].
    assert (2 ^ 53 <= 2 ^ (Z.pos (digits2_pos p) - 1)) by (apply Z.pow_le_mono_r; lia).
    lia. }
  rewrite double_of_Z_pos_spec by lia.
  eexists _, _. split; [reflexivity|]. split; [|lia].
  destruct (53 - Z.pos (digits2_pos p)) as [|k|k] eqn:E; try lia.
  rewrite digits2_pos_iter_xO. lia.
Qed.

Lemma double_of_Z_uint v :
  0 < v < 2 ^ 32 ->
  exists m e, double_of_Z v = S754_finite false m e
              /\ digits2_pos m = 53%positive /\ -52 <= e <= 0.
Proof.
  intros Hv. apply double_of_Z_normal.
  assert (2 ^ 32 < 2 ^ 53) by (apply Z.pow_lt_mono_r; lia). lia.
Qed.

Lemma finite_nonzero s m e : double_nonzero (S754_finite s m e) = true.
Proof. destruct s; reflexivity. Qed.

(** Doubling and halving a vertical total lose nothing. *)
Lemma effective_vTotal_normal mode_info :
  0 < vTotal mode_info < 2 ^ 32 ->
  exists m e, effective_vTotal mode_info = S754_finite false m e
              /\ digits2_pos m = 53%positive /\ -53 <= e <= 1.
Proof.
  intros Hv. destruct (double_of_Z_uint _ Hv) as (m & e & Hd & Hm & He).
  unfold effective_vTotal. rewrite Hd.
  destruct (Z.land (modeFlags mode_info) RR_DoubleScan =? 0);
    destruct (Z.land (modeFlags mode_info) RR_Interlace =? 0);
    rewrite ?dmul_two, ?ddiv_two by (auto; lia);
    eexists _, _; (split; [reflexivity|]); split; auto; lia.
Qed.

Lemma effective_vTotal_zero mode_info :
  vTotal mode_info = 0 -> double_nonzero (effective_vTotal mode_info) = false.
Proof.
  intros Hv. unfold effective_vTotal. rewrite Hv.
  destruct (Z.land (modeFlags mode_info) RR_DoubleScan =? 0);
    destruct (Z.land (modeFlags mode_info) RR_Interlace =? 0); reflexivity.
Qed.

Lemma effective_vTotal_spec mode_info :
  effective_vTotal mode_info =
  spec_effective_v_total (vTotal mode_info)
    (flag_set (modeFlags mode_info) RR_DoubleScan)
    (flag_set (modeFlags mode_info) RR_Interlace).
Proof.
  unfold effective_vTotal, spec_effective_v_total, flag_set.
  destruct (Z.land (modeFlags mode_info) RR_DoubleScan =? 0);
    destruct (Z.land (modeFlags mode_info) RR_Interlace =? 0); reflexivity.
Qed.

Lemma digits2_pos_uint p :
  Z.pos p < 2 ^ 32 -> Z.pos (digits2_pos p) <= 32.
Proof.
  intros Hp. pose proof (digits2_pos_bounds p) as [Hlo _].
  destruct (Z.le_gt_cases (Z.pos (digits2_pos p)) 32) as [|Hgt]; [assumption|].
  assert (2 ^ 32 <= 2 ^ (Z.pos (digits2_pos p) - 1))
    by (apply Z.pow_le_mono_r; lia).
  lia.
Qed.

(** Twice a vertical total is formed without rounding. *)
Lemma dmul_two_exact v :
  0 < v < 2 ^ 32 ->
  dmul (double_of_Z v) (double_of_Z 2) = double_of_Z (2 * v).
Proof.
  intros Hv. destruct v as [|p|p]; try lia.
  change (2 * Z.pos p) with (Z.pos p~0).
  pose proof (digits2_pos_uint p ltac:(lia)) as Hd.
  rewrite (double_of_Z_pos_spec p) by lia.
  rewrite (double_of_Z_pos_spec p~0) by (simpl; lia).
  simpl digits2_pos.
  destruct (53 - Z.pos (digits2_pos p)) as [|k|k] eqn:Ek; try lia.
  destruct (53 - Z.pos (Pos.succ (digits2_pos p))) as [|k'|k'] eqn:Ek'; try lia.
  rewrite dmul_two.
  - f_equal; [|lia].
    replace k with (Pos.succ k') by lia. apply Pos.iter_succ_r.
  - rewrite digits2_pos_iter_xO. lia.
  - lia.
Qed.

(** The effective vertical total is exact: doubling and halving a
    vertical total round nothing away. *)
Lemma effective_vTotal_exact mode_info :
  0 < vTotal mode_info < 2 ^ 32 ->
  let doublescan := flag_set (modeFlags mode_info) RR_DoubleScan in
  let interlace := flag_set (modeFlags mode_info) RR_Interlace in
  match doublescan, interlace with
  | false, false => effective_vTotal mode_info = double_of_Z (vTotal mode_info)
  | true, false =>
      effective_vTotal mode_info = double_of_Z (2 * vTotal mode_info)
  | true, true => effective_vTotal mode_info = double_of_Z (vTotal mode_info)
  | false, true =>
      dmul (effective_vTotal mode_info) (double_of_Z 2)
      = double_of_Z (vTotal mode_info)
  end.
Proof.
  intros Hv. unfold effective_vTotal, flag_set. simpl.
  destruct (Z.land (modeFlags mode_info) RR_DoubleScan =? 0);
    destruct (Z.land (modeFlags mode_info) RR_Interlace =? 0); simpl.
  - reflexivity.
  - destruct (double_of_Z_uint _ Hv) as (m & e & -> & Hm & He).
    rewrite ddiv_two, dmul_two by (auto; lia). f_equal. lia.
  - apply dmul_two_exact. exact Hv.
  - destruct (double_of_Z_uint _ Hv) as (m & e & -> & Hm & He).
    rewrite dmul_two, ddiv_two by (auto; lia). f_equal. lia.
Qed.

(** With both totals positive the quotient is formed, and its divisor is
    not zero. *)
Lemma mode_refresh_divides mode_info :
  0 < hTotal mode_info < 2 ^ 32 -> 0 < vTotal mode_info < 2 ^ 32 ->
  mode_refresh mode_info =
  Some (ddiv (double_of_Z (dotClock mode_info))
             (dmul (double_of_Z (hTotal mode_info))
                   (effective_vTotal mode_info))).
Proof.
  intros Hh Hv.
  destruct (effective_vTotal_normal _ Hv) as (m & e & Hd & Hm & He).
  destruct (double_of_Z_uint _ Hh) as (mh & eh & Hdh & Hmh & Heh).
  unfold mode_refresh, checked_ddiv. rewrite Hd, Hdh.
  rewrite finite_nonzero.
  destruct (Z.eqb_spec (hTotal mode_info) 0) as [|_]; [lia|]. simpl negb. simpl andb.
  rewrite dmul_finite_nonzero by lia. reflexivity.
Qed.


(** ** The refresh rate *)

(** C5. With [hTotal] and [vTotal] positive, [mode_refresh] is the pixel
    clock divided by the product of the horizontal total and the effective
    vertical total, where the effective vertical total is [vTotal] doubled
    first when the doublescan flag is set and then halved when the
    interlace flag is set; with both flags clear it is
    [dotClock / (hTotal * vTotal)]. The operations are those of binary64,
    and the doubling and the halving are exact. *)
Theorem C5_mode_refresh_formula (mode_info : XRRModeInfo) :
  0 < hTotal mode_info < 2 ^ 32 ->
  0 < vTotal mode_info < 2 ^ 32 ->
  let doublescan := flag_set (modeFlags mode_info) RR_DoubleScan in
  let interlace := flag_set (modeFlags mode_info) RR_Interlace in
  effective_vTotal mode_info
    = spec_effective_v_total (vTotal mode_info) doublescan interlace
  /\ mode_refresh mode_info
      = Some (spec_refresh_hz (dotClock mode_info) (hTotal mode_info)
                (vTotal mode_info) doublescan interlace)
  /\ (doublescan = false -> interlace = false ->
      mode_refresh mode_info
      = Some (ddiv (double_of_Z (dotClock mode_info))
                   (dmul (double_of_Z (hTotal mode_info))
                         (double_of_Z (vTotal mode_info)))))
  /\ match doublescan, interlace with
     | true, false =>
         effective_vTotal mode_info = double_of_Z (2 * vTotal mode_info)
     | false, true =>
         dmul (effective_vTotal mode_info) (double_of_Z 2)
         = double_of_Z (vTotal mode_info)
     | _, _ => effective_vTotal mode_info = double_of_Z (vTotal mode_info)
     end.
Proof.
  intros Hh Hv doublescan interlace.
  pose proof (effective_vTotal_spec mode_info) as Hspec.
  fold doublescan interlace in Hspec.
  split; [exact Hspec|].
  rewrite (mode_refresh_divides _ Hh Hv), Hspec.
  split; [reflexivity|]. split.
  - intros -> ->. reflexivity.
  - rewrite <- Hspec.
    pose proof (effective_vTotal_exact mode_info Hv) as Hex.
    simpl in Hex. fold doublescan interlace in Hex.
    destruct doublescan, interlace; exact Hex.
Qed.

Lemma C5_witness :
  mode_refresh mode_1080p = Some (double_of_Z 60)
  /\ mode_refresh mode_1080i = Some (double_of_Z 60).
Proof.
  split.
  - destruct (C5_mode_refresh_formula mode_1080p) as (_ & H & _);
      [vm_compute; split; reflexivity | vm_compute; split; reflexivity |].
    rewrite H. vm_compute. reflexivity.
  - destruct (C5_mode_refresh_formula mode_1080i) as (_ & H & _);
      [vm_compute; split; reflexivity | vm_compute; split; reflexivity |].
    rewrite H. vm_compute. reflexivity.
Defined.

(** C6. [mode_refresh] is total on every mode whose totals are
    [unsigned int] values: it always returns, never forms a quotient with
    a zero divisor, and returns 0.0 whenever [hTotal] is 0 or the effective
    vertical total is 0, which is the case exactly when [vTotal] is 0. *)
Theorem C6_mode_refresh_total (mode_info : XRRModeInfo) :
  0 <= hTotal mode_info < 2 ^ 32 ->
  0 <= vTotal mode_info < 2 ^ 32 ->
  (exists rate, mode_refresh mode_info = Some rate)
  /\ (hTotal mode_info = 0 \/ double_nonzero (effective_vTotal mode_info) = false ->
      mode_refresh mode_info = Some (S754_zero false))
  /\ (double_nonzero (effective_vTotal mode_info) = false <-> vTotal mode_info = 0).
Proof.
  intros Hh Hv.
  assert (Hzero : hTotal mode_info = 0 \/ double_nonzero (effective_vTotal mode_info) = false ->
                  mode_refresh mode_info = Some (S754_zero false)).
  { unfold mode_refresh. intros [-> | ->].
    - reflexivity.
    - rewrite andb_false_r. reflexivity. }
  assert (Hv0 : double_nonzero (effective_vTotal mode_info) = false <-> vTotal mode_info = 0).
  { split; [|apply effective_vTotal_zero].
    intros Hz. destruct (Z.eq_dec (vTotal mode_info) 0) as [|Hne]; [assumption|].
    destruct (effective_vTotal_normal mode_info) as (m & e & Hd & _); [lia|].
    rewrite Hd, finite_nonzero in Hz. discriminate. }
  split; [|split; assumption].
  destruct (Z.eq_dec (hTotal mode_info) 0) as [Hh0|Hh0].
  - eexists. apply Hzero. left. exact Hh0.
  - destruct (Z.eq_dec (vTotal mode_info) 0) as [Hv1|Hv1].
    + eexists. apply Hzero. right. apply Hv0. exact Hv1.
    + eexists. apply mode_refresh_divides; lia.
Qed.

Lemma C6_witness :
  mode_refresh mode_v0 = Some (S754_zero false).
Proof.
  destruct (C6_mode_refresh_total mode_v0) as (_ & H & _);
    [vm_compute; split; [discriminate | reflexivity]
    |vm_compute; split; [discriminate | reflexivity] |].
  apply H. right. vm_compute. reflexivity.
Defined.


(** ** The identification decoder *)

Section Edid.

Context (edid : list Z).

(** *** The three loops of [parseedid] *)

Lemma for_each_checksum n : forall (k : nat) (s : Z),
  (k + n <= length edid)%nat -> 0 <= s < 256 ->
  for_each (checksum_step edid) (seq k n) s
  = Some ((s + byte_sum (take n (drop k edid))) mod 256).
Proof.
  induction n as [|n IH]; intros k s Hk Hs; simpl.
  - rewrite Z.add_0_r, Z.mod_small by lia. reflexivity.
  - destruct (lookup_lt_is_Some_2 edid k) as [b Hb]; [lia|].
    unfold checksum_step at 1. rewrite Hb. simpl.
    rewrite IH by (try lia; apply Z.mod_pos_bound; lia).
    rewrite (drop_S _ _ _ Hb). simpl.
    rewrite Zplus_mod_idemp_l. do 2 f_equal. lia.
Qed.

Lemma for_each_header (indices : list nat) : forall log : list Warning,
  Forall (fun i => i < length edid)%nat indices ->
  exists log',
    for_each (header_step edid) indices log = Some log'
    /\ forall w, w ∈ log' <->
         w ∈ log \/ (w = HeaderIncorrect /\ exists i b,
                       i ∈ indices /\ edid !! i = Some b
                       /\ header_byte_ok i b = false).
Proof.
  induction indices as [|i rest IH]; intros log Hin; simpl.
  - exists log. split; [reflexivity|]. intros w. split; [auto|].
    intros [H | (_ & i & b & Hi & _)]; [exact H|]. inversion Hi.
  - apply Forall_cons in Hin as [Hi Hrest].
    destruct (lookup_lt_is_Some_2 edid i Hi) as [b Hb].
    unfold header_step at 1. rewrite Hb. simpl.
    destruct (IH (if header_byte_ok i b then log else log ++ [HeaderIncorrect]) Hrest)
      as (log' & Hrun & Hlog).
    exists log'. split; [exact Hrun|]. intros w. rewrite Hlog. clear Hlog Hrun.
    destruct (header_byte_ok i b) eqn:Hok.
    + split.
      * intros [H | (Hw & j & c & Hj & Hc & Hbad)]; [auto|].
        right. split; [exact Hw|]. exists j, c. rewrite elem_of_cons. auto.
      * intros [H | (Hw & j & c & Hj & Hc & Hbad)]; [auto|].
        apply elem_of_cons in Hj as [-> | Hj].
        -- congruence.
        -- right. split; [exact Hw|]. exists j, c. auto.
    + rewrite elem_of_app, list_elem_of_singleton. split.
      * intros [[H | ->] | (Hw & j & c & Hj & Hc & Hbad)]; [auto | |].
        -- right. split; [reflexivity|]. exists i, b. rewrite elem_of_cons. auto.
        -- right. split; [exact Hw|]. exists j, c. rewrite elem_of_cons. auto.
      * intros [H | (Hw & j & c & Hj & Hc & Hbad)]; [auto|].
        apply elem_of_cons in Hj as [-> | Hj]; [auto|].
        right. split; [exact Hw|]. exists j, c. auto.
Qed.

Lemma for_each_copy_name (i n : nat) : forall (k : nat) (buf : list Z),
  (k + n <= length buf)%nat -> (i + 5 + k + n <= length edid)%nat ->
  exists buf',
    for_each (copy_name_step edid i) (seq k n) buf = Some buf'
    /\ length buf' = length buf
    /\ forall j : nat, buf' !! j =
         if decide (k <= j < k + n)%nat
         then lf_to_nul <$> edid !! (i + 5 + j)%nat
         else buf !! j.
Proof.
  induction n as [|n IH]; intros k buf Hk Hi; simpl.
  - exists buf. split; [reflexivity|]. split; [reflexivity|].
    intros j. case_decide; [lia | reflexivity].
  - destruct (lookup_lt_is_Some_2 edid (i + 5 + k)) as [b Hb]; [lia|].
    unfold copy_name_step at 1. rewrite Hb. simpl. unfold store.
    case_decide; [|lia].
    destruct (IH (S k) (<[k := if b =? 10 then 0 else b]> buf))
      as (buf' & Hrun & Hlen & Hlook).
    { rewrite length_insert. lia. }
    { lia. }
    exists buf'. split; [exact Hrun|]. split.
    { rewrite Hlen. apply length_insert. }
    intros j. rewrite Hlook. clear Hlook Hrun.
    destruct (decide (j = k)) as [-> | Hne].
    + rewrite decide_False by lia. rewrite decide_True by lia.
      rewrite list_lookup_insert_eq by lia. rewrite Hb. reflexivity.
    + rewrite list_lookup_insert_ne by lia.
      repeat case_decide; try lia; reflexivity.
Qed.

Lemma length_name_bytes i :
  (i + 18 <= length edid)%nat -> length (name_bytes edid i) = 13%nat.
Proof.
  intros Hi. unfold name_bytes, name_field.
  rewrite length_fmap, length_take, length_drop. lia.
Qed.

Lemma lookup_name_bytes i (j : nat) :
  name_bytes edid i !! j =
  if decide (j < 13)%nat then lf_to_nul <$> edid !! (i + 5 + j)%nat else None.
Proof.
  unfold name_bytes, name_field.
  rewrite list_lookup_fmap, lookup_take, lookup_drop.
  case_decide; reflexivity.
Qed.

(** The loop over [j] overwrites the whole buffer. *)
Lemma copy_name_loop i (buf : list Z) :
  length buf = 13%nat -> (i + 18 <= length edid)%nat ->
  for_each (copy_name_step edid i) (seq 0 13) buf = Some (name_bytes edid i).
Proof.
  intros Hbuf Hi.
  destruct (for_each_copy_name i 13 0 buf) as (buf' & Hrun & Hlen & Hlook);
    [lia | lia |].
  rewrite Hrun. f_equal. apply list_eq. intros j.
  rewrite Hlook, lookup_name_bytes.
  repeat case_decide; try lia; try reflexivity.
  apply lookup_ge_None_2. lia.
Qed.

Lemma descriptor_step_spec i (buf : list Z) :
  length buf = 13%nat -> (i + 18 <= length edid)%nat ->
  descriptor_step edid i buf
  = Some (if decide (is_name_descriptor edid i) then name_bytes edid i else buf).
Proof.
  intros Hbuf Hi. unfold descriptor_step.
  destruct (decide (is_name_descriptor edid i)) as [[H0 H3] | Hno].
  - rewrite H0. simpl. rewrite H3. simpl. apply copy_name_loop; assumption.
  - destruct (lookup_lt_is_Some_2 edid i) as [b0 Hb0]; [lia|].
    destruct (lookup_lt_is_Some_2 edid (i + 3)) as [b3 Hb3]; [lia|].
    rewrite Hb0. simpl.
    destruct (Z.eqb_spec b0 0) as [-> | Hne0]; [|reflexivity].
    rewrite Hb3. simpl.
    destruct (Z.eqb_spec b3 252) as [-> | Hne3]; [|reflexivity].
    exfalso. apply Hno. split; assumption.
Qed.

(** The scan keeps the bytes of the last descriptor that passes the two
    tests, and the buffer as it was when none does. *)
Lemma for_each_descriptor (offsets : list nat) : forall buf : list Z,
  length buf = 13%nat ->
  Forall (fun i => i + 18 <= length edid)%nat offsets ->
  for_each (descriptor_step edid) offsets buf
  = Some (from_option (name_bytes edid) buf
            (last (filter (is_name_descriptor edid) offsets))).
Proof.
  induction offsets as [|i rest IH]; intros buf Hbuf Hin; simpl.
  - reflexivity.
  - apply Forall_cons in Hin as [Hi Hrest].
    rewrite descriptor_step_spec by assumption.
    rewrite filter_cons. case_decide.
    + rewrite IH by (auto using length_name_bytes).
      rewrite last_cons. destruct (last _); reflexivity.
    + rewrite IH by assumption. reflexivity.
Qed.

Lemma descriptor_offsets_in_block :
  length edid = 128%nat ->
  Forall (fun i => i + 18 <= length edid)%nat descriptor_offsets.
Proof.
  intros ->. unfold descriptor_offsets. simpl.
  repeat constructor; lia.
Qed.

(** *** [parseedid] on a block of 128 bytes *)

Lemma parseedid_spec (buf : list Z) :
  length edid = 128%nat -> length buf = 13%nat ->
  exists log,
    parseedid edid buf = Some (0, log, scanned_name edid buf)
    /\ (ChecksumFailed ∈ log <-> byte_sum edid mod 256 <> 0)
    /\ (HeaderIncorrect ∈ log <->
        exists (i : nat) b, (i < 8)%nat /\ edid !! i = Some b
                            /\ header_byte_ok i b = false).
Proof.
  intros Hlen Hbuf. unfold parseedid.
  rewrite for_each_checksum by lia.
  rewrite Z.add_0_l, drop_0, take_ge by lia.
  cbv beta iota zeta delta [mbind option_bind].
  set (log0 := if byte_sum edid mod 256 =? 0 then [] else [ChecksumFailed]).
  destruct (for_each_header (seq 0 8) log0) as (log & Hrun & Hlog).
  { apply Forall_forall. intros i Hi. apply elem_of_seq in Hi. lia. }
  rewrite Hrun.
  rewrite for_each_descriptor by (auto using descriptor_offsets_in_block).
  exists log. split; [reflexivity|]. split.
  - rewrite Hlog. unfold log0.
    destruct (Z.eqb_spec (byte_sum edid mod 256) 0) as [Hz | Hnz].
    + rewrite Hz. split; [|congruence].
      intros [H | (H & _)]; [inversion H | discriminate].
    + split; [auto|]. intros _. left. apply list_elem_of_singleton. reflexivity.
  - rewrite Hlog. split.
    + intros [H | (_ & i & b & Hi & Hb & Hbad)].
      * unfold log0 in H. destruct (byte_sum edid mod 256 =? 0).
        -- inversion H.
        -- apply list_elem_of_singleton in H. discriminate.
      * exists i, b. apply elem_of_seq in Hi. split; [lia | auto].
    + intros (i & b & Hi & Hb & Hbad). right. split; [reflexivity|].
      exists i, b. rewrite elem_of_seq. split; [lia | auto].
Qed.

End Edid.

(** *** The name as [%s] reads it *)


Lemma c_str_no_nul (buf : list Z) :
  Forall (fun b => b <> 0) buf -> c_str buf = None.
Proof.
  induction buf as [|b rest IH]; intros Hall; [reflexivity|].
  apply Forall_cons in Hall as [Hb Hrest]. simpl.
  destruct (Z.eqb_spec b 0) as [|_]; [contradiction|].
  rewrite IH by assumption. reflexivity.
Qed.

Lemma lf_to_nul_id (src : list Z) :
  Forall (fun b => b <> 0x0a) src -> lf_to_nul <$> src = src.
Proof.
  induction src as [|b rest IH]; intros Hall; [reflexivity|].
  apply Forall_cons in Hall as [Hb Hrest]. rewrite fmap_cons, IH by assumption.
  unfold lf_to_nul. destruct (Z.eqb_spec b 10) as [|_]; [contradiction | reflexivity].
Qed.


Lemma decoded_name_spec (edid : list Z) :
  length edid = 128%nat ->
  decoded_name edid = c_str (scanned_name edid empty_modelname).
Proof.
  intros Hlen. unfold decoded_name.
  destruct (parseedid_spec edid empty_modelname Hlen) as (log & Hrun & _);
    [reflexivity|].
  rewrite Hrun. reflexivity.
Qed.

(** The header warning is sound: it is logged only for a header that
    deviates from the pattern. *)
Lemma header_byte_ok_pattern (edid : list Z) :
  take 8 edid = header_pattern ->
  forall (i : nat) b, (i < 8)%nat -> edid !! i = Some b -> header_byte_ok i b = true.
Proof.
  intros Hpat i b Hi Hb.
  rewrite <- (lookup_take_lt edid 8 i Hi), Hpat in Hb.
  do 8 (destruct i as [|i]; [inversion Hb; reflexivity|]). lia.
Qed.

Lemma header_warning_sound (edid buf : list Z) r log name :
  length edid = 128%nat -> length buf = 13%nat ->
  parseedid edid buf = Some (r, log, name) ->
  HeaderIncorrect ∈ log -> header_deviates edid.
Proof.
  intros Hlen Hbuf Hrun Hin Hpat.
  destruct (parseedid_spec edid buf Hlen Hbuf) as (log' & Hrun' & _ & Hhdr).
  rewrite Hrun in Hrun'. inversion Hrun'; subst log'.
  apply Hhdr in Hin as (i & b & Hi & Hb & Hbad).
  rewrite (header_byte_ok_pattern edid Hpat i b Hi Hb) in Hbad. discriminate.
Qed.

(** *** The claims on the decoder *)




(** C4 at a header that starts with 0xFF: the block deviates from the
    pattern 00 FF FF FF FF FF FF 00 in its first byte, and no warning is
    logged. *)
Theorem C4_header_ff_unflagged :
  length edid_ff_header = 128%nat
  /\ edid_ff_header !! 0%nat = Some 0xff
  /\ header_deviates edid_ff_header
  /\ exists name, parseedid edid_ff_header empty_modelname = Some (0, [], name).
Proof.
  split; [reflexivity|]. split; [reflexivity|]. split.
  - unfold header_deviates. vm_compute. discriminate.
  - eexists. vm_compute. reflexivity.
Qed.



(** C9. On every block of 128 bytes in which more than one scanned
    descriptor passes the tests for a model name, the buffer holds, after
    [parseedid], the name bytes of the last of them in scan order: the scan
    runs on after a match and a later match overwrites an earlier one. *)
Theorem C9_last_match_wins (edid buf : list Z) (i : nat) :
  length edid = 128%nat -> length buf = 13%nat ->
  (1 < length (filter (is_name_descriptor edid) descriptor_offsets))%nat ->
  last (filter (is_name_descriptor edid) descriptor_offsets) = Some i ->
  (exists log, parseedid edid buf = Some (0, log, name_bytes edid i))
  /\ (buf = empty_modelname -> decoded_name edid = c_str (name_bytes edid i)).
Proof.
  intros Hlen Hbuf _ Hlast.
  destruct (parseedid_spec edid buf Hlen Hbuf) as (log & Hrun & _).
  unfold scanned_name in Hrun. rewrite Hlast in Hrun. simpl in Hrun.
  split; [exists log; exact Hrun|].
  intros ->. unfold decoded_name. rewrite Hrun. reflexivity.
Qed.

Lemma C9_witness :
  filter (is_name_descriptor edid_two_names) descriptor_offsets
    = [0x36; 0x48]%nat
  /\ decoded_name edid_two_names = Some [66; 66].
Proof.
  split; [vm_compute; reflexivity|].
  destruct (C9_last_match_wins edid_two_names empty_modelname 0x48%nat)
    as (_ & H);
    [reflexivity | reflexivity | vm_compute; lia | vm_compute; reflexivity |].
  rewrite H by reflexivity. vm_compute. reflexivity.
Defined.

(** C10. When the descriptor at [i] passes the two tests, the copy writes
    all 13 bytes of the 13-byte buffer: position [j] receives 0x00 when the
    source byte is 0x0A and the source byte itself otherwise, also after
    the first 0x0A. If no source byte is 0x0A the buffer is the name field
    unchanged, no terminator is written, and if the field holds no 0x00
    either the buffer has no NUL at all. *)
Theorem C10_name_copy (edid buf : list Z) (i : nat) :
  length buf = 13%nat -> (i + 18 <= length edid)%nat ->
  is_name_descriptor edid i ->
  exists buf',
    descriptor_step edid i buf = Some buf'
    /\ length buf' = 13%nat
    /\ (forall j : nat, (j < 13)%nat ->
          exists b, edid !! (i + 5 + j)%nat = Some b
                    /\ buf' !! j = Some (if b =? 0x0a then 0x00 else b))
    /\ (Forall (fun b => b <> 0x0a) (name_field edid i) ->
        buf' = name_field edid i
        /\ (Forall (fun b => b <> 0x00) (name_field edid i) ->
            c_str buf' = None)).
Proof.
  intros Hbuf Hi Hname. exists (name_bytes edid i).
  rewrite descriptor_step_spec, decide_True by assumption.
  split; [reflexivity|]. split; [apply length_name_bytes; assumption|]. split.
  - intros j Hj. rewrite lookup_name_bytes, decide_True by assumption.
    destruct (lookup_lt_is_Some_2 edid (i + 5 + j)) as [b Hb]; [lia|].
    exists b. rewrite Hb. split; reflexivity.
  - intros Hnolf. unfold name_bytes. rewrite lf_to_nul_id by assumption.
    split; [reflexivity|]. apply c_str_no_nul.
Qed.

Lemma C10_witness :
  descriptor_step edid_long_name 0x36 empty_modelname
    = Some [65; 66; 67; 68; 69; 70; 71; 72; 73; 74; 75; 76; 77]
  /\ decoded_name edid_long_name = None.
Proof.
  destruct (C10_name_copy edid_long_name empty_modelname 0x36%nat)
    as (buf' & Hrun & _ & _ & H);
    [reflexivity | vm_compute; lia | vm_compute; split; reflexivity |].
  destruct H as [Heq Hnul].
  { vm_compute. repeat constructor; discriminate. }
  split.
  - rewrite Hrun, Heq. vm_compute. reflexivity.
  - vm_compute. reflexivity.
Defined.

(** ** The catalogue of an output *)

Section Catalog.

Context (res : XRRScreenResources) (output_info : XRROutputInfo).

Lemma find_mode_elem (table : list XRRModeInfo) xid mode_info :
  find_mode table xid = Some mode_info ->
  mode_info ∈ table /\ mode_id mode_info = xid.
Proof.
  induction table as [|m rest IH]; simpl; [discriminate|].
  destruct (Z.eqb_spec xid (mode_id m)) as [-> | _].
  - intros [= ->]. split; [apply list_elem_of_here | reflexivity].
  - intros H. destruct (IH H) as [Hin Hid].
    split; [apply list_elem_of_further; exact Hin | exact Hid].
Qed.

Lemma mode_refresh_in_range mode_info :
  mode_in_range mode_info -> exists rate, mode_refresh mode_info = Some rate.
Proof.
  intros [Hh Hv].
  destruct (Z.eq_dec (hTotal mode_info) 0) as [Hh0 | Hh0].
  - exists (double_of_Z 0). unfold mode_refresh. rewrite Hh0. reflexivity.
  - destruct (Z.eq_dec (vTotal mode_info) 0) as [Hv0 | Hv0].
    + exists (double_of_Z 0). unfold mode_refresh.
      rewrite (effective_vTotal_zero _ Hv0), andb_false_r. reflexivity.
    + eexists. apply mode_refresh_divides; lia.
Qed.

Lemma uint_of_int_small v : 0 <= v < 2 ^ 31 -> uint_of_int v = v.
Proof.
  intros Hv. unfold uint_of_int. apply Z.mod_small.
  assert (2 ^ 31 < 2 ^ 32) by (apply Z.pow_lt_mono_r; lia). lia.
Qed.

Lemma asprintf_no_args_defined (n : nat) : forall name : string,
  (String.length name <= n)%nat ->
  (no_conversion name = true -> exists text, asprintf_no_args name = Some text)
  /\ (no_conversion name = false -> asprintf_no_args name = None).
Proof.
  induction n as [|n IH]; intros name Hlen.
  - destruct name; [|simpl in Hlen; lia].
    split; [exists EmptyString; reflexivity | discriminate].
  - destruct name as [|c rest]; [split; [exists EmptyString; reflexivity | discriminate]|].
    simpl in Hlen. simpl. destruct (Ascii.eqb c "%"%char).
    + destruct rest as [|c' rest']; [split; [discriminate | reflexivity]|].
      simpl in Hlen. destruct (Ascii.eqb c' "%"%char); simpl;
        [|split; [discriminate | reflexivity]].
      destruct (IH rest' ltac:(lia)) as [Hyes Hno]. split.
      * intros Hok. destruct (Hyes Hok) as [text ->]. eexists. reflexivity.
      * intros Hbad. rewrite (Hno Hbad). reflexivity.
    + destruct (IH rest ltac:(lia)) as [Hyes Hno]. split.
      * intros Hok. destruct (Hyes Hok) as [text ->]. eexists. reflexivity.
      * intros Hbad. rewrite (Hno Hbad). reflexivity.
Qed.

Lemma asprintf_no_args_percent_free (name : string) :
  percent_free name = true -> asprintf_no_args name = Some name.
Proof.
  induction name as [|c rest IH]; simpl; [reflexivity|].
  destruct (Ascii.eqb c "%"%char); simpl; [discriminate|].
  intros Hfree. rewrite (IH Hfree). reflexivity.
Qed.

(** The loop over [n], started at position [length done] with the rows
    [list_store], appends one row for each identifier that resolves. *)
Lemma for_each_catalog (ids : list XID) : forall (done : list XID) (list_store : list Row),
  modes output_info = done ++ ids ->
  Forall mode_well_formed (res_modes res) ->
  0 <= npreferred output_info < 2 ^ 31 ->
  exists rows,
    for_each (catalog_step res output_info) (seq (length done) (length ids))
             list_store = Some (list_store ++ rows)
    /\ Forall2 (row_presents (npreferred output_info)) rows
               (resolved_from res (length done) ids).
Proof.
  induction ids as [|xid rest IH]; intros done list_store Hmodes Hrange Hpref.
  - exists []. simpl. rewrite app_nil_r. split; [reflexivity | constructor].
  - assert (Hxid : modes output_info !! length done = Some xid).
    { rewrite Hmodes. apply list_lookup_middle. reflexivity. }
    assert (Hnext : modes output_info = (done ++ [xid]) ++ rest).
    { rewrite Hmodes, <- app_assoc. reflexivity. }
    assert (Hlen : length (done ++ [xid]) = S (length done)).
    { rewrite length_app. simpl. lia. }
    simpl. unfold catalog_step at 1. rewrite Hxid. simpl.
    destruct (find_mode_by_xid res xid) as [mode_info|] eqn:Hfind.
    + destruct (find_mode_elem _ _ _ Hfind) as [Hin _].
      assert (Hwf : mode_well_formed mode_info).
      { rewrite Forall_forall in Hrange. apply Hrange. exact Hin. }
      destruct Hwf as [Hinrange Hname].
      destruct (asprintf_no_args_defined _ (mode_name mode_info) (Nat.le_refl _))
        as [Hfmt _].
      destruct (Hfmt Hname) as [text Htext].
      destruct (mode_refresh_in_range mode_info Hinrange) as [rate Hrate].
      rewrite Htext. simpl. rewrite Hrate. simpl.
      match goal with
      | |- context [for_each _ _ (list_store ++ [?r])] => set (row := r)
      end.
      destruct (IH (done ++ [xid]) (list_store ++ [row]) Hnext Hrange Hpref)
        as (rows & Hrun & Hrows).
      rewrite Hlen in Hrun, Hrows.
      exists (row :: rows). split.
      * rewrite Hrun, <- app_assoc. reflexivity.
      * constructor; [|exact Hrows].
        unfold row_presents, row. simpl.
        repeat split; try reflexivity; try assumption.
        -- rewrite uint_of_int_small by assumption. apply Z.ltb_lt.
        -- rewrite uint_of_int_small by assumption. apply Z.ltb_lt.
    + destruct (IH (done ++ [xid]) list_store Hnext Hrange Hpref)
        as (rows & Hrun & Hrows).
      rewrite Hlen in Hrun, Hrows.
      exists rows. split; assumption.
Qed.

Lemma build_catalog_spec :
  Forall mode_well_formed (res_modes res) ->
  0 <= npreferred output_info < 2 ^ 31 ->
  exists rows,
    build_catalog res output_info = Some rows
    /\ Forall2 (row_presents (npreferred output_info)) rows
               (resolved_from res 0 (modes output_info)).
Proof.
  intros Hrange Hpref.
  destruct (for_each_catalog (modes output_info) [] [] eq_refl Hrange Hpref)
    as (rows & Hrun & Hrows).
  exists rows. split; assumption.
Qed.


Lemma resolved_from_lookup (k : nat) (ids : list XID) n xid mode_info :
  (n, xid, mode_info) ∈ resolved_from res k ids <->
  (k <= n)%nat /\ ids !! (n - k)%nat = Some xid
  /\ find_mode_by_xid res xid = Some mode_info.
Proof.
  revert k. induction ids as [|y rest IH]; intros k; cbn [resolved_from].
  - split; [intros H; inversion H | intros (_ & H & _); discriminate].
  - assert (Hrest : (n, xid, mode_info) ∈ resolved_from res (S k) rest <->
                    (k < n)%nat /\ (y :: rest) !! (n - k)%nat = Some xid
                    /\ find_mode_by_xid res xid = Some mode_info).
    { rewrite IH. split.
      - intros (Hk & Hl & Hf). split; [lia|]. split; [|exact Hf].
        replace (n - k)%nat with (S (n - S k)) by lia. exact Hl.
      - intros (Hk & Hl & Hf). split; [lia|]. split; [|exact Hf].
        replace (n - k)%nat with (S (n - S k)) in Hl by lia. exact Hl. }
    destruct (find_mode_by_xid res y) as [m|] eqn:Hfind.
    + rewrite elem_of_cons, Hrest. split.
      * intros [[= -> -> ->] | (Hk & Hl & Hf)].
        -- split; [lia|]. rewrite Nat.sub_diag. split; [reflexivity | exact Hfind].
        -- split; [lia|]. split; assumption.
      * intros (Hk & Hl & Hf).
        destruct (decide (n = k)) as [-> | Hne].
        -- left. rewrite Nat.sub_diag in Hl. simpl in Hl. injection Hl as ->.
           rewrite Hfind in Hf. injection Hf as ->. reflexivity.
        -- right. split; [lia|]. split; assumption.
    + rewrite Hrest. split.
      * intros (Hk & Hl & Hf). split; [lia|]. split; assumption.
      * intros (Hk & Hl & Hf).
        destruct (decide (n = k)) as [-> | Hne].
        -- rewrite Nat.sub_diag in Hl. simpl in Hl. injection Hl as ->.
           rewrite Hfind in Hf. discriminate.
        -- split; [lia|]. split; assumption.
Qed.

End Catalog.



(** ** The mode switch *)

Lemma ulong_of_int_of_ulong (xid : XID) :
  0 <= xid < 2 ^ 31 -> ulong_of_int (int_of_ulong xid) = xid.
Proof.
  intros Hx. unfold int_of_ulong, ulong_of_int.
  assert (2 ^ 31 < 2 ^ 32) by (apply Z.pow_lt_mono_r; lia).
  assert (2 ^ 32 < 2 ^ 64) by (apply Z.pow_lt_mono_r; lia).
  rewrite (Z.mod_small xid) by lia.
  destruct (Z.ltb_spec xid (2 ^ 31)) as [_ | ?]; [|lia].
  apply Z.mod_small. lia.
Qed.

(** A page is made only for a connected output that has a CRTC. *)
Lemma activate_output_page srv res output log page :
  activate_output srv res output = Some (log, Some page) ->
  page_user_data page = output
  /\ exists output_info,
       XRRGetOutputInfo srv output = Some output_info
       /\ connection output_info <> RR_Disconnected
       /\ crtc output_info <> None_XID.
Proof.
  unfold activate_output.
  destruct (XRRGetOutputInfo srv output) as [output_info|]; [|discriminate].
  simpl.
  destruct (Z.eqb_spec (connection output_info) RR_Disconnected) as [|Hconn];
    [discriminate|].
  destruct (Z.eqb_spec (crtc output_info) None_XID) as [|Hcrtc];
    [discriminate|].
  destruct (XRRGetCrtcInfo srv (crtc output_info)); [|discriminate].
  destruct (output_modelname srv output) as [[log' modelname]|];
    [|discriminate].
  simpl. destruct (build_catalog res output_info); [|discriminate].
  simpl. destruct (c_str modelname); [|discriminate].
  simpl. intros [= _ <-]. split; [reflexivity|].
  exists output_info. auto.
Qed.

Lemma activate_output_no_crtc srv res output output_info :
  XRRGetOutputInfo srv output = Some output_info ->
  crtc output_info = None_XID ->
  activate_output srv res output = Some ([], None).
Proof.
  intros Hinfo Hcrtc. unfold activate_output. rewrite Hinfo. simpl.
  rewrite Hcrtc. destruct (connection output_info =? RR_Disconnected); reflexivity.
Qed.

Lemma activate_outputs_pages srv res (outs : list XID) : forall log pages,
  activate_outputs srv res outs = Some (log, pages) ->
  forall page, page ∈ pages ->
    page_user_data page ∈ outs
    /\ exists output_info,
         XRRGetOutputInfo srv (page_user_data page) = Some output_info
         /\ connection output_info <> RR_Disconnected
         /\ crtc output_info <> None_XID.
Proof.
  induction outs as [|output rest IH]; intros log pages Hrun page Hin.
  - injection Hrun as <- <-. inversion Hin.
  - simpl in Hrun.
    destruct (activate_output srv res output) as [[log1 page1]|] eqn:Hout;
      [|discriminate].
    simpl in Hrun.
    destruct (activate_outputs srv res rest) as [[log2 pages2]|] eqn:Hrest;
      [|discriminate].
    simpl in Hrun. injection Hrun as <- <-.
    apply elem_of_app in Hin as [Hin | Hin].
    + destruct page1 as [page1|]; [|inversion Hin].
      apply list_elem_of_singleton in Hin as ->.
      destruct (activate_output_page _ _ _ _ _ Hout) as [-> Hinfo].
      split; [apply list_elem_of_here | exact Hinfo].
    + destruct (IH _ _ eq_refl page Hin) as [Hmem Hinfo].
      split; [apply list_elem_of_further; exact Hmem | exact Hinfo].
Qed.

(** C1, as the specification states it, does not hold: the CRTC was at
    (1920, 0), rotated by 90 degrees, and drove the outputs 66 and 68;
    after the switch it is at (0, 0), not rotated, and output 68 is no
    longer driven by it. *)
Lemma C1_counterexample :
  XRRGetCrtcInfo (server sample_world) 63
    = Some {| crtc_x := 1920; crtc_y := 0; crtc_mode := 0x47;
              crtc_rotation := 2; crtc_outputs := [66; 68] |}
  /\ (w ← row_activated sample_world sample_rows 1 66;
      XRRGetCrtcInfo (server w) 63)
     = Some {| crtc_x := 0; crtc_y := 0; crtc_mode := 0x48;
               crtc_rotation := RR_Rotate_0; crtc_outputs := [66] |}.
Proof. vm_compute. split; reflexivity. Qed.

(** C1, amended. For every output with a CRTC the server knows, the
    activation of a row sends, after the query of the output, one
    [XRRSetCrtcConfig] request for that CRTC: it commits the mode
    identifier of the row with the position (0, 0), the rotation
    [RR_Rotate_0] and the output set made of that one output. The
    configuration of every other CRTC is as before. A row made from an
    identifier below 2^31 commits that identifier. *)
Theorem C1_row_activated_commit (w : World) (model : list Row) (path : nat)
    (row : Row) (output : XID) (output_info : XRROutputInfo)
    (crtc_info : XRRCrtcInfo) :
  model !! path = Some row ->
  XRRGetOutputInfo (server w) output = Some output_info ->
  XRRGetCrtcInfo (server w) (crtc output_info) = Some crtc_info ->
  exists w',
    row_activated w model path output = Some w'
    /\ calls w' = calls w ++
         [CallGetOutputInfo output;
          CallSetCrtcConfig (crtc output_info) CurrentTime 0 0
            (ulong_of_int (XID_COLUMN row)) RR_Rotate_0 [output]]
    /\ XRRGetCrtcInfo (server w') (crtc output_info)
       = Some {| crtc_x := 0; crtc_y := 0;
                 crtc_mode := ulong_of_int (XID_COLUMN row);
                 crtc_rotation := RR_Rotate_0; crtc_outputs := [output] |}
    /\ (forall c, c <> crtc output_info ->
          XRRGetCrtcInfo (server w') c = XRRGetCrtcInfo (server w) c)
    /\ (forall xid, 0 <= xid < 2 ^ 31 -> XID_COLUMN row = int_of_ulong xid ->
          ulong_of_int (XID_COLUMN row) = xid).
Proof.
  intros Hrow Hinfo Hcrtc.
  unfold row_activated. rewrite Hrow, Hinfo. simpl.
  unfold XRRSetCrtcConfig. unfold XRRGetCrtcInfo in Hcrtc. rewrite Hcrtc.
  eexists. split; [reflexivity|]. split; [reflexivity|].
  unfold XRRGetCrtcInfo. simpl. split; [apply lookup_insert_eq|]. split.
  - intros c Hc. apply lookup_insert_ne. congruence.
  - intros xid Hx ->. apply ulong_of_int_of_ulong. exact Hx.
Qed.

Lemma C1_witness :
  exists w',
    row_activated sample_world sample_rows 1 66 = Some w'
    /\ calls w' = [CallGetOutputInfo 66;
                   CallSetCrtcConfig 63 CurrentTime 0 0 0x48 RR_Rotate_0 [66]].
Proof.
  destruct (C1_row_activated_commit sample_world sample_rows 1
              {| XID_COLUMN := 0x48; XID_STRING_COLUMN := "0x48";
                 NAME_COLUMN := "1920x1080i";
                 REFRESH_COLUMN := double_of_Z 60;
                 PIXCLOCK_COLUMN :=
                   ddiv (double_of_Z 74250000) (double_of_Z 1000000);
                 PREFERRED_COLUMN := false |}
              66 sample_output_66
              {| crtc_x := 1920; crtc_y := 0; crtc_mode := 0x47;
                 crtc_rotation := 2; crtc_outputs := [66; 68] |})
    as (w' & Hrun & Hcalls & _);
    [vm_compute; reflexivity | vm_compute; reflexivity
    | vm_compute; reflexivity |].
  exists w'. split; [exact Hrun | exact Hcalls].
Defined.

(** C2, as the specification states it, does not hold: output 67 has no
    CRTC, and the activation of a row for it returns without an error after
    it has sent an [XRRSetCrtcConfig] request that names the CRTC 0. *)
Lemma C2_counterexample :
  crtc <$> XRRGetOutputInfo (server sample_world) 67 = Some None_XID
  /\ calls <$> row_activated sample_world sample_rows 0 67
     = Some [CallGetOutputInfo 67;
             CallSetCrtcConfig None_XID CurrentTime 0 0 0x47 RR_Rotate_0 [67]].
Proof. vm_compute. split; reflexivity. Qed.

(** C2, amended. [row_activated] does not look at the CRTC field and has
    no error result: for an output whose CRTC field is empty it sends the
    [XRRSetCrtcConfig] request all the same, with 0 for the CRTC. The
    outputs without a CRTC are held back where the catalogue is built:
    [activate] makes no page for such an output, and every page it makes is
    connected with an output that had a CRTC. *)
Theorem C2_row_activated_unchecked (w : World) (model : list Row)
    (path : nat) (row : Row) (output : XID) (output_info : XRROutputInfo) :
  model !! path = Some row ->
  XRRGetOutputInfo (server w) output = Some output_info ->
  crtc output_info = None_XID ->
  (exists w',
     row_activated w model path output = Some w'
     /\ calls w' = calls w ++
          [CallGetOutputInfo output;
           CallSetCrtcConfig None_XID CurrentTime 0 0
             (ulong_of_int (XID_COLUMN row)) RR_Rotate_0 [output]])
  /\ (forall res, activate_output (server w) res output = Some ([], None))
  /\ (forall res log pages,
        activate (server w) res = Some (log, pages) ->
        forall page, page ∈ pages -> page_user_data page <> output).
Proof.
  intros Hrow Hinfo Hcrtc. split; [|split].
  - unfold row_activated. rewrite Hrow, Hinfo. simpl. rewrite Hcrtc.
    destruct (XRRSetCrtcConfig (server w) None_XID CurrentTime 0 0
                (ulong_of_int (XID_COLUMN row)) RR_Rotate_0 [output])
      as [status srv'].
    eexists. split; reflexivity.
  - intros res. apply (activate_output_no_crtc _ _ _ _ Hinfo Hcrtc).
  - intros res log pages Hrun page Hin Heq.
    destruct (activate_outputs_pages _ _ _ _ _ Hrun page Hin)
      as (_ & oi & Hoi & _ & Hc).
    rewrite Heq, Hinfo in Hoi. injection Hoi as <-. contradiction.
Qed.

Lemma C2_witness :
  (exists w',
     row_activated sample_world sample_rows 0 67 = Some w'
     /\ calls w' =
          [CallGetOutputInfo 67;
           CallSetCrtcConfig None_XID CurrentTime 0 0 0x47 RR_Rotate_0 [67]])
  /\ activate_output sample_server sample_res 67 = Some ([], None).
Proof.
  destruct (C2_row_activated_unchecked sample_world sample_rows 0
              {| XID_COLUMN := 0x47; XID_STRING_COLUMN := "0x47";
                 NAME_COLUMN := "1920x1080";
                 REFRESH_COLUMN := double_of_Z 60;
                 PIXCLOCK_COLUMN :=
                   ddiv (double_of_Z 148500000) (double_of_Z 1000000);
                 PREFERRED_COLUMN := true |}
              67
              {| output_name := "DP-1"; connection := RR_Connected;
                 crtc := None_XID; modes := [0x47]; npreferred := 1 |})
    as (Hrun & Hskip & _);
    [vm_compute; reflexivity | vm_compute; reflexivity | reflexivity |].
  split; [exact Hrun | apply (Hskip sample_res)].
Defined.

(* ================================================================= *)
(** * Part III: further properties of the program *)
(* ================================================================= *)

(** ** [find_mode_by_xid] *)

(** X1. [find_mode_by_xid] returns the first mode of the global table that
    carries the identifier, also when several do, and returns [NULL]
    exactly when no mode of the table carries it. *)
Theorem X1_find_mode_by_xid_first (res : XRRScreenResources) (xid : XID) :
  match find_mode_by_xid res xid with
  | Some mode_info =>
      exists k : nat,
        res_modes res !! k = Some mode_info /\ mode_id mode_info = xid
        /\ forall (j : nat) m, (j < k)%nat -> res_modes res !! j = Some m ->
                               mode_id m <> xid
  | None => forall m, m ∈ res_modes res -> mode_id m <> xid
  end.
Proof.
  unfold find_mode_by_xid.
  induction (res_modes res) as [|m rest IH]; simpl.
  - intros m Hin. inversion Hin.
  - destruct (Z.eqb_spec xid (mode_id m)) as [Heq | Hne].
    + exists 0%nat. split; [reflexivity|]. split; [congruence|]. intros; lia.
    + destruct (find_mode rest xid) as [found|].
      * destruct IH as (k & Hk & Hid & Hbefore).
        exists (S k). split; [exact Hk|]. split; [exact Hid|].
        intros [|j] m' Hj Hm'.
        -- injection Hm' as <-. congruence.
        -- apply (Hbefore j); [lia | exact Hm'].
      * intros m' Hin. apply elem_of_cons in Hin as [-> | Hin].
        -- congruence.
        -- apply IH. exact Hin.
Qed.

(** ** [output_edid_get] *)

(** X2. [output_edid_get] returns a block exactly when the output has the
    property with type [XA_INTEGER], format 8 and at least one item; the
    block is then the start of the property's value and is never empty, so
    that the caller's test of the length never fails. In every other case
    it returns [NULL]. *)
Theorem X2_output_edid_get (srv : Server) (output : XID) (edid : list Z) :
  (output_edid_get srv output = Some edid <->
   exists p, srv_edid srv !! output = Some p
             /\ prop_type p = XA_INTEGER /\ prop_format p = 8
             /\ prop_items p <> []
             /\ edid = take (4 * 128) (prop_items p))
  /\ (output_edid_get srv output = Some edid ->
      edid <> [] /\ (length edid <= 4 * 128)%nat).
Proof.
  assert (Hiff : output_edid_get srv output = Some edid <->
    exists p, srv_edid srv !! output = Some p
              /\ prop_type p = XA_INTEGER /\ prop_format p = 8
              /\ prop_items p <> []
              /\ edid = take (4 * 128) (prop_items p)).
  { unfold output_edid_get, XRRGetOutputProperty.
    destruct (srv_edid srv !! output) as [p|]; cbn [prop_type prop_format prop_items].
    - destruct (Z.eqb_spec (prop_type p) XA_INTEGER) as [Ht | Ht]; cbn [andb].
      2:{ split; [discriminate|]. intros (q & Hq & ? & _). congruence. }
      destruct (prop_items p) as [|b items] eqn:Hitems.
      { split; [discriminate|]. intros (q & Hq & _ & _ & Hne & _).
        injection Hq as <-. congruence. }
      assert (Hlen : (1 <=? Z.of_nat (length (take (4 * 128) (b :: items))))
                     = true).
      { apply Z.leb_le. rewrite length_take. simpl length. lia. }
      rewrite Hlen. cbn [andb].
      destruct (Z.eqb_spec (prop_format p) 8) as [Hf | Hf].
      2:{ split; [discriminate|]. intros (q & Hq & _ & ? & _). congruence. }
      split.
      + intros Heq. injection Heq as Heq. exists p. rewrite Hitems.
        repeat split; auto.
      + intros (q & Hq & _ & _ & _ & Heq). injection Hq as <-.
        rewrite Hitems in Heq. rewrite Heq. reflexivity.
    - split; [discriminate | intros (q & Hq & _); discriminate]. }
  split; [exact Hiff|].
  intros Hget. apply Hiff in Hget as (p & _ & _ & _ & Hne & ->). split.
  - destruct (prop_items p); [contradiction | discriminate].
  - rewrite length_take. lia.
Qed.

(** ** [parseedid]: what it reads *)

Lemma for_each_ext {St : Type} (f g : nat -> St -> option St)
    (indices : list nat) :
  (forall i s, i ∈ indices -> f i s = g i s) ->
  forall s, for_each f indices s = for_each g indices s.
Proof.
  induction indices as [|i rest IH]; intros Hfg s; simpl; [reflexivity|].
  rewrite (Hfg i s) by apply list_elem_of_here.
  destruct (g i s); [|reflexivity].
  apply IH. intros j t Hj. apply Hfg. apply list_elem_of_further. exact Hj.
Qed.

Lemma descriptor_step_agree (e1 e2 : list Z) (i : nat) (buf : list Z) :
  (forall j : nat, (i <= j < i + 18)%nat -> e1 !! j = e2 !! j) ->
  descriptor_step e1 i buf = descriptor_step e2 i buf.
Proof.
  intros Hagree. unfold descriptor_step.
  rewrite (Hagree i), (Hagree (i + 3)%nat) by lia.
  destruct (e2 !! i) as [b0|]; [|reflexivity].
  cbv beta iota delta [mbind option_bind].
  destruct (b0 =? 0); [|reflexivity].
  destruct (e2 !! (i + 3)%nat) as [b3|]; [|reflexivity].
  destruct (b3 =? 252); [|reflexivity].
  apply for_each_ext. intros j s Hj. apply elem_of_seq in Hj.
  unfold copy_name_step. rewrite (Hagree (i + 5 + j)%nat) by lia. reflexivity.
Qed.

Lemma for_each_descriptor_agree (e1 e2 buf : list Z) :
  (forall j : nat, (0x36 <= j < 0x7E)%nat -> e1 !! j = e2 !! j) ->
  for_each (descriptor_step e1) descriptor_offsets buf
  = for_each (descriptor_step e2) descriptor_offsets buf.
Proof.
  intros Hagree. apply for_each_ext. intros i s Hi.
  apply descriptor_step_agree. intros j Hj. apply Hagree.
  unfold descriptor_offsets in Hi. simpl in Hi.
  repeat (apply elem_of_cons in Hi as [-> | Hi]; [lia|]). inversion Hi.
Qed.

Lemma parseedid_agree (e1 e2 buf : list Z) :
  (forall j : nat, (j < 128)%nat -> e1 !! j = e2 !! j) ->
  parseedid e1 buf = parseedid e2 buf.
Proof.
  intros Hagree. unfold parseedid.
  rewrite (for_each_ext (checksum_step e1) (checksum_step e2)).
  2:{ intros i s Hi. apply elem_of_seq in Hi. unfold checksum_step.
      rewrite Hagree by lia. reflexivity. }
  destruct (for_each (checksum_step e2) (seq 0 128) 0) as [sum|];
    [|reflexivity].
  cbv beta iota zeta delta [mbind option_bind].
  rewrite (for_each_ext (header_step e1) (header_step e2)).
  2:{ intros i s Hi. apply elem_of_seq in Hi. unfold header_step.
      rewrite Hagree by lia. reflexivity. }
  destruct (for_each (header_step e2) (seq 0 8) _) as [log|]; [|reflexivity].
  rewrite (for_each_descriptor_agree e1 e2).
  2:{ intros j Hj. apply Hagree. lia. }
  reflexivity.
Qed.

Lemma for_each_checksum_short (edid : list Z) (n : nat) :
  forall (k : nat) (s : Z),
    (k <= length edid < k + n)%nat ->
    for_each (checksum_step edid) (seq k n) s = None.
Proof.
  induction n as [|n IH]; intros k s Hk; [lia|]. simpl.
  unfold checksum_step at 1.
  destruct (edid !! k) as [b|] eqn:Hb; simpl; [|reflexivity].
  apply lookup_lt_Some in Hb. apply IH. lia.
Qed.

(** X3. [parseedid] reads the first 128 bytes of the block and nothing
    else: on a block of at least 128 bytes it returns, with the result it
    has on the first 128 bytes alone, and on a shorter block it reads past
    the end of the block. *)
Theorem X3_parseedid_reads_128_bytes (edid buf : list Z) :
  length buf = 13%nat ->
  ((128 <= length edid)%nat ->
   parseedid edid buf = parseedid (take 128 edid) buf
   /\ exists log, parseedid edid buf
                  = Some (0, log, scanned_name (take 128 edid) buf))
  /\ ((length edid < 128)%nat -> parseedid edid buf = None).
Proof.
  intros Hbuf. split.
  - intros Hlen.
    assert (Heq : parseedid edid buf = parseedid (take 128 edid) buf).
    { apply parseedid_agree. intros j Hj. rewrite lookup_take_lt by lia.
      reflexivity. }
    split; [exact Heq|]. rewrite Heq.
    destruct (parseedid_spec (take 128 edid) buf) as (log & Hrun & _);
      [rewrite length_take; lia | exact Hbuf |].
    exists log. exact Hrun.
  - intros Hlen. unfold parseedid.
    rewrite for_each_checksum_short by lia. reflexivity.
Qed.

Lemma X3_witness :
  parseedid (edid_ABC ++ [1; 2; 3]) empty_modelname
    = parseedid edid_ABC empty_modelname
  /\ parseedid (take 64 edid_ABC) empty_modelname = None.
Proof.
  destruct (X3_parseedid_reads_128_bytes (edid_ABC ++ [1; 2; 3])
              empty_modelname) as [[H _] _];
    [reflexivity | vm_compute; lia |].
  destruct (X3_parseedid_reads_128_bytes (take 64 edid_ABC)
              empty_modelname) as [_ H'];
    [reflexivity |].
  split.
  - rewrite H. reflexivity.
  - apply H'. vm_compute. lia.
Defined.

(** X4. The name that [parseedid] leaves in the buffer depends on the
    bytes 0x36 to 0x7D of the block only: two blocks of 128 bytes that
    agree there give the same buffer, whatever their headers, their
    checksums and the warnings they draw. *)
Theorem X4_name_depends_on_descriptors_only (e1 e2 buf : list Z) :
  length e1 = 128%nat -> length e2 = 128%nat -> length buf = 13%nat ->
  (forall j : nat, (0x36 <= j < 0x7E)%nat -> e1 !! j = e2 !! j) ->
  exists log1 log2 name,
    parseedid e1 buf = Some (0, log1, name)
    /\ parseedid e2 buf = Some (0, log2, name).
Proof.
  intros H1 H2 Hbuf Hagree.
  destruct (parseedid_spec e1 buf H1 Hbuf) as (log1 & Hrun1 & _).
  destruct (parseedid_spec e2 buf H2 Hbuf) as (log2 & Hrun2 & _).
  exists log1, log2, (scanned_name e1 buf). split; [exact Hrun1|].
  rewrite Hrun2. do 2 f_equal.
  pose proof (for_each_descriptor_agree e1 e2 buf Hagree) as Heq.
  rewrite !for_each_descriptor in Heq
    by (auto using descriptor_offsets_in_block).
  injection Heq as Heq. symmetry. exact Heq.
Qed.

Lemma X4_witness :
  exists log1 log2 name,
    parseedid edid_ABC empty_modelname = Some (0, log1, name)
    /\ parseedid edid_ff_header empty_modelname = Some (0, log2, name).
Proof.
  apply (X4_name_depends_on_descriptors_only edid_ABC edid_ff_header
           empty_modelname);
    [reflexivity | reflexivity | reflexivity |].
  intros j Hj.
  do 54 (destruct j as [|j]; [lia|]).
  do 72 (destruct j as [|j]; [reflexivity|]). lia.
Defined.

(** ** [parseedid]: the diagnostics *)

(** X5. On a block of 128 bytes a header warning is logged only when the
    first eight bytes deviate from 00 FF FF FF FF FF FF 00, and it is
    always logged when one of the bytes 1 to 6 is not 0xFF or when byte 0
    or byte 7 is neither 0x00 nor 0xFF. *)
Theorem X5_header_warning (edid buf : list Z) :
  length edid = 128%nat -> length buf = 13%nat ->
  exists log name,
    parseedid edid buf = Some (0, log, name)
    /\ (HeaderIncorrect ∈ log -> header_deviates edid)
    /\ (forall (i : nat) b, (1 <= i <= 6)%nat -> edid !! i = Some b ->
          b <> 0xff -> HeaderIncorrect ∈ log)
    /\ (forall (i : nat) b, i = 0%nat \/ i = 7%nat -> edid !! i = Some b ->
          b <> 0x00 -> b <> 0xff -> HeaderIncorrect ∈ log).
Proof.
  intros Hlen Hbuf.
  destruct (parseedid_spec edid buf Hlen Hbuf) as (log & Hrun & _ & Hhdr).
  exists log, (scanned_name edid buf). split; [exact Hrun|]. split; [|split].
  - apply (header_warning_sound edid buf 0 log _ Hlen Hbuf Hrun).
  - intros i b Hi Hb Hne. apply Hhdr. exists i, b.
    split; [lia|]. split; [exact Hb|]. unfold header_byte_ok.
    destruct (Z.eqb_spec b 255) as [|_]; [contradiction|].
    do 7 (destruct i as [|i]; [try lia; rewrite ?andb_false_l; reflexivity|]).
    lia.
  - intros i b Hi Hb Hne0 Hneff. apply Hhdr. exists i, b.
    split; [lia|]. split; [exact Hb|]. unfold header_byte_ok.
    destruct (Z.eqb_spec b 255) as [|_]; [contradiction|].
    destruct (Z.eqb_spec b 0) as [|_]; [contradiction|].
    rewrite andb_false_r. reflexivity.
Qed.

Lemma X5_witness :
  exists log name,
    parseedid edid_zeros empty_modelname = Some (0, log, name)
    /\ HeaderIncorrect ∈ log.
Proof.
  destruct (X5_header_warning edid_zeros empty_modelname)
    as (log & name & Hrun & _ & Hmid & _); [reflexivity | reflexivity |].
  exists log, name. split; [exact Hrun|].
  apply (Hmid 1%nat 0); [lia | reflexivity | discriminate].
Defined.

Lemma byte_sum_insert (l : list Z) : forall (i : nat) b b',
  l !! i = Some b -> byte_sum (<[i := b']> l) = byte_sum l - b + b'.
Proof.
  induction l as [|x rest IH]; intros i b b' Hb; [discriminate|].
  destruct i as [|i]; simpl in *.
  - injection Hb as ->. lia.
  - rewrite (IH i b b' Hb). lia.
Qed.

(** X6. The checksum catches the change of any single byte: when the 128
    bytes of a block sum to zero modulo 256 and one byte is replaced by a
    different byte value, [parseedid] logs the checksum warning on the
    changed block, and still returns. *)
Theorem X6_checksum_detects_single_byte_change (edid buf : list Z)
    (i : nat) (b b' : Z) :
  length edid = 128%nat -> length buf = 13%nat ->
  byte_sum edid mod 256 = 0 ->
  edid !! i = Some b -> is_uchar b -> is_uchar b' -> b' <> b ->
  exists log name,
    parseedid (<[i := b']> edid) buf = Some (0, log, name)
    /\ ChecksumFailed ∈ log.
Proof.
  intros Hlen Hbuf Hsum Hb Hrb Hrb' Hne. unfold is_uchar in *.
  destruct (parseedid_spec (<[i := b']> edid) buf) as (log & Hrun & Hck & _);
    [rewrite length_insert; exact Hlen | exact Hbuf |].
  exists log, (scanned_name (<[i := b']> edid) buf). split; [exact Hrun|].
  apply Hck. rewrite (byte_sum_insert edid i b b' Hb).
  intros Hzero.
  apply Z.mod_divide in Hsum; [|lia]. apply Z.mod_divide in Hzero; [|lia].
  destruct Hsum as [q Hq]. destruct Hzero as [q' Hq'].
  assert (Hdiff : b' - b = (q' - q) * 256) by lia.
  assert (q' - q = 0) by lia. lia.
Qed.

Lemma X6_witness :
  exists log name,
    parseedid (<[10%nat := 7]> edid_ABC) empty_modelname = Some (0, log, name)
    /\ ChecksumFailed ∈ log.
Proof.
  apply (X6_checksum_detects_single_byte_change edid_ABC empty_modelname
           10%nat 0 7);
    [ reflexivity | reflexivity | reflexivity | reflexivity
    | unfold is_uchar; lia | unfold is_uchar; lia | discriminate ].
Defined.

(** ** The decoded name *)

Lemma c_str_Some (buf s : list Z) :
  c_str buf = Some s ->
  (length s < length buf)%nat /\ Forall (fun b => b <> 0) s
  /\ forall b, b ∈ s -> b ∈ buf.
Proof.
  revert s. induction buf as [|x rest IH]; intros s; simpl; [discriminate|].
  destruct (Z.eqb_spec x 0) as [-> | Hx].
  - intros [= <-]. simpl. split; [lia|]. split; [constructor|].
    intros b Hb. inversion Hb.
  - destruct (c_str rest) as [t|]; simpl; [|discriminate].
    intros [= <-]. destruct (IH t eq_refl) as (Hlen & Hnz & Hsub).
    simpl. split; [lia|]. split; [constructor; assumption|].
    intros b Hb. apply elem_of_cons in Hb as [-> | Hb].
    + apply list_elem_of_here.
    + apply list_elem_of_further. apply Hsub. exact Hb.
Qed.

Lemma c_str_None (buf : list Z) :
  c_str buf = None <-> Forall (fun b => b <> 0) buf.
Proof.
  split; [|apply c_str_no_nul].
  induction buf as [|x rest IH]; simpl; [constructor|].
  destruct (Z.eqb_spec x 0) as [|Hx]; [discriminate|].
  destruct (c_str rest); simpl; [discriminate|].
  intros _. constructor; [exact Hx | apply IH; reflexivity].
Qed.

Lemma lf_to_nul_not_lf (b : Z) : lf_to_nul b <> 0x0a.
Proof. unfold lf_to_nul. destruct (Z.eqb_spec b 10); lia. Qed.

Lemma lf_to_nul_nonzero (b : Z) : lf_to_nul b <> 0 <-> b <> 0x0a /\ b <> 0.
Proof. unfold lf_to_nul. destruct (Z.eqb_spec b 10); lia. Qed.

(** X7. On a block of 128 bytes, a name that [activate] can print has at
    most 12 characters and holds neither a NUL nor a line feed. The name is
    printable exactly when no descriptor counts as a name descriptor or the
    13-byte field of the last one that counts holds a 0x0A or a 0x00;
    otherwise the buffer has no terminator and [%s] reads past it. *)
Theorem X7_decoded_name_shape (edid : list Z) :
  length edid = 128%nat ->
  (forall name, decoded_name edid = Some name ->
     (length name <= 12)%nat
     /\ Forall (fun b => b <> 0x00 /\ b <> 0x0a) name)
  /\ (decoded_name edid = None <->
      exists i,
        last (filter (is_name_descriptor edid) descriptor_offsets) = Some i
        /\ Forall (fun b => b <> 0x0a /\ b <> 0x00) (name_field edid i)).
Proof.
  intros Hlen. rewrite decoded_name_spec by assumption.
  unfold scanned_name.
  destruct (last (filter (is_name_descriptor edid) descriptor_offsets))
    as [i|] eqn:Hlast; simpl.
  - assert (Hi : (i + 18 <= length edid)%nat).
    { pose proof (descriptor_offsets_in_block edid Hlen) as Hall.
      rewrite Forall_forall in Hall. apply Hall.
      apply last_Some_elem_of in Hlast.
      apply list_elem_of_filter in Hlast as [_ Hin]. exact Hin. }
    split.
    + intros name Hname. apply c_str_Some in Hname as (Hl & Hnz & Hsub).
      rewrite length_name_bytes in Hl by assumption. split; [lia|].
      rewrite Forall_forall in Hnz. apply Forall_forall. intros b Hb.
      split; [apply Hnz; exact Hb|].
      apply Hsub in Hb. unfold name_bytes in Hb.
      apply list_elem_of_fmap in Hb as (c & -> & _). apply lf_to_nul_not_lf.
    + rewrite c_str_None. unfold name_bytes. rewrite Forall_fmap. split.
      * intros Hall. exists i. split; [reflexivity|].
        eapply Forall_impl; [exact Hall|]. intros b Hb. simpl in Hb.
        apply lf_to_nul_nonzero. exact Hb.
      * intros (i' & [= <-] & Hall).
        eapply Forall_impl; [exact Hall|]. intros b Hb. simpl.
        apply lf_to_nul_nonzero. exact Hb.
  - split.
    + intros name [= <-]. split; [simpl; lia | constructor].
    + split; [discriminate | intros (i & Hi & _); discriminate].
Qed.

Lemma X7_witness :
  decoded_name edid_long_name = None
  /\ (forall name, decoded_name edid_ABC = Some name ->
        (length name <= 12)%nat).
Proof.
  destruct (X7_decoded_name_shape edid_long_name) as [_ Hnone];
    [reflexivity|].
  destruct (X7_decoded_name_shape edid_ABC) as [Hsome _]; [reflexivity|].
  split.
  - apply Hnone. exists 0x36%nat. split; [vm_compute; reflexivity|].
    vm_compute. repeat constructor; discriminate.
  - intros name Hname. apply (Hsome name Hname).
Defined.

(** ** [mode_refresh]: how the two flags combine *)

Lemma mode_refresh_congr (m1 m2 : XRRModeInfo) :
  dotClock m1 = dotClock m2 -> hTotal m1 = hTotal m2 ->
  effective_vTotal m1 = effective_vTotal m2 ->
  mode_refresh m1 = mode_refresh m2.
Proof. intros Hc Hh Hv. unfold mode_refresh. rewrite Hc, Hh, Hv. reflexivity. Qed.

Lemma flag_set_true flags bit :
  flag_set flags bit = true -> (Z.land flags bit =? 0) = false.
Proof. unfold flag_set. destruct (Z.land flags bit =? 0); [discriminate | reflexivity]. Qed.

Lemma flag_set_false flags bit :
  flag_set flags bit = false -> (Z.land flags bit =? 0) = true.
Proof. unfold flag_set. destruct (Z.land flags bit =? 0); [reflexivity | discriminate]. Qed.

(** X8. Doublescan and interlace cancel: a mode with both flags set has
    the refresh rate of the mode with the same clock and totals and both
    flags clear, bit for bit. *)
Theorem X8_doublescan_and_interlace_cancel (m1 m2 : XRRModeInfo) :
  dotClock m1 = dotClock m2 -> hTotal m1 = hTotal m2 ->
  vTotal m1 = vTotal m2 -> 0 <= vTotal m1 < 2 ^ 32 ->
  flag_set (modeFlags m1) RR_DoubleScan = true ->
  flag_set (modeFlags m1) RR_Interlace = true ->
  flag_set (modeFlags m2) RR_DoubleScan = false ->
  flag_set (modeFlags m2) RR_Interlace = false ->
  mode_refresh m1 = mode_refresh m2.
Proof.
  intros Hc Hh Hv Hrange Hd1 Hi1 Hd2 Hi2.
  apply mode_refresh_congr; [assumption | assumption |].
  unfold effective_vTotal.
  rewrite (flag_set_true _ _ Hd1), (flag_set_true _ _ Hi1),
          (flag_set_false _ _ Hd2), (flag_set_false _ _ Hi2), <- Hv.
  destruct (Z.eq_dec (vTotal m1) 0) as [-> | Hne]; [reflexivity|].
  destruct (double_of_Z_uint (vTotal m1)) as (m & e & -> & Hm & He); [lia|].
  rewrite dmul_two, ddiv_two by (auto; lia). f_equal. lia.
Qed.

Lemma X8_witness :
  mode_refresh {| mode_id := 0x50; mode_name := "both"; dotClock := 74250000;
                  hTotal := 2200; vTotal := 1125; modeFlags := 0x35 |}
  = mode_refresh {| mode_id := 0x51; mode_name := "none"; dotClock := 74250000;
                    hTotal := 2200; vTotal := 1125; modeFlags := 0x5 |}.
Proof.
  apply X8_doublescan_and_interlace_cancel;
    try reflexivity; vm_compute; split; [discriminate | reflexivity].
Defined.

(** X9. A doublescan mode has the refresh rate of the plain mode with
    twice its vertical total, and an interlaced mode with an even vertical
    total has the refresh rate of the plain mode with half of it. *)
Theorem X9_flags_as_vertical_totals (m1 m2 : XRRModeInfo) :
  dotClock m1 = dotClock m2 -> hTotal m1 = hTotal m2 ->
  flag_set (modeFlags m2) RR_DoubleScan = false ->
  flag_set (modeFlags m2) RR_Interlace = false ->
  (flag_set (modeFlags m1) RR_DoubleScan = true ->
   flag_set (modeFlags m1) RR_Interlace = false ->
   0 <= vTotal m1 < 2 ^ 32 -> vTotal m2 = 2 * vTotal m1 ->
   mode_refresh m1 = mode_refresh m2)
  /\ (flag_set (modeFlags m1) RR_DoubleScan = false ->
      flag_set (modeFlags m1) RR_Interlace = true ->
      0 <= vTotal m2 < 2 ^ 31 -> vTotal m1 = 2 * vTotal m2 ->
      mode_refresh m1 = mode_refresh m2).
Proof.
  intros Hc Hh Hd2 Hi2. split.
  - intros Hd1 Hi1 Hrange Hv.
    apply mode_refresh_congr; [assumption | assumption |].
    unfold effective_vTotal.
    rewrite (flag_set_true _ _ Hd1), (flag_set_false _ _ Hi1),
            (flag_set_false _ _ Hd2), (flag_set_false _ _ Hi2), Hv.
    destruct (Z.eq_dec (vTotal m1) 0) as [-> | Hne]; [reflexivity|].
    apply dmul_two_exact. lia.
  - intros Hd1 Hi1 Hrange Hv.
    apply mode_refresh_congr; [assumption | assumption |].
    unfold effective_vTotal.
    rewrite (flag_set_false _ _ Hd1), (flag_set_true _ _ Hi1),
            (flag_set_false _ _ Hd2), (flag_set_false _ _ Hi2), Hv.
    destruct (Z.eq_dec (vTotal m2) 0) as [-> | Hne]; [reflexivity|].
    assert (Hlt : 2 ^ 31 < 2 ^ 32) by (apply Z.pow_lt_mono_r; lia).
    rewrite <- dmul_two_exact by lia.
    destruct (double_of_Z_uint (vTotal m2)) as (m & e & -> & Hm & He); [lia|].
    rewrite dmul_two, ddiv_two by (auto; lia). f_equal. lia.
Qed.

Lemma X9_witness :
  mode_refresh {| mode_id := 0x52; mode_name := "ds"; dotClock := 25175000;
                  hTotal := 800; vTotal := 262; modeFlags := 0x20 |}
  = mode_refresh {| mode_id := 0x53; mode_name := "plain";
                    dotClock := 25175000; hTotal := 800; vTotal := 524;
                    modeFlags := 0 |}
  /\ mode_refresh {| mode_id := 0x54; mode_name := "il"; dotClock := 25175000;
                     hTotal := 800; vTotal := 524; modeFlags := 0x10 |}
     = mode_refresh {| mode_id := 0x55; mode_name := "plain";
                       dotClock := 25175000; hTotal := 800; vTotal := 262;
                       modeFlags := 0 |}.
Proof.
  split.
  - destruct (X9_flags_as_vertical_totals
                {| mode_id := 0x52; mode_name := "ds"; dotClock := 25175000;
                   hTotal := 800; vTotal := 262; modeFlags := 0x20 |}
                {| mode_id := 0x53; mode_name := "plain";
                   dotClock := 25175000; hTotal := 800; vTotal := 524;
                   modeFlags := 0 |}) as [H _];
      [reflexivity | reflexivity | reflexivity | reflexivity |].
    apply H; try reflexivity. vm_compute. split; [discriminate | reflexivity].
  - destruct (X9_flags_as_vertical_totals
                {| mode_id := 0x54; mode_name := "il"; dotClock := 25175000;
                   hTotal := 800; vTotal := 524; modeFlags := 0x10 |}
                {| mode_id := 0x55; mode_name := "plain";
                   dotClock := 25175000; hTotal := 800; vTotal := 262;
                   modeFlags := 0 |}) as [_ H];
      [reflexivity | reflexivity | reflexivity | reflexivity |].
    apply H; try reflexivity. vm_compute. split; [discriminate | reflexivity].
Defined.

(** ** [activate]: which outputs get a page *)

Lemma activate_output_has_page srv res output log page :
  activate_output srv res output = Some (log, page) ->
  match page with
  | Some p => has_page srv output = true /\ page_user_data p = output
  | None => has_page srv output = false
  end.
Proof.
  unfold activate_output, has_page.
  destruct (XRRGetOutputInfo srv output) as [output_info|]; [|discriminate].
  simpl.
  destruct (connection output_info =? RR_Disconnected).
  { intros [= _ <-]. reflexivity. }
  destruct (crtc output_info =? None_XID).
  { intros [= _ <-]. reflexivity. }
  destruct (XRRGetCrtcInfo srv (crtc output_info)) as [crtc_info|].
  2:{ intros [= _ <-]. reflexivity. }
  destruct (output_modelname srv output) as [[log' modelname]|];
    [|discriminate].
  simpl. destruct (build_catalog res output_info); [|discriminate].
  simpl. destruct (c_str modelname); [|discriminate].
  simpl. intros [= _ <-]. split; reflexivity.
Qed.

(** X10. When [activate] returns, the notebook holds one page for each
    output of [res->outputs] that is not disconnected, has a CRTC and whose
    CRTC the server resolves, in the order of [res->outputs], and no other
    page. Only [RR_Disconnected] is tested: an output whose connection is
    unknown gets a page. *)
Theorem X10_activate_pages (srv : Server) (res : XRRScreenResources)
    (log : list Warning) (pages : list Page) :
  activate srv res = Some (log, pages) ->
  page_user_data <$> pages
  = filter (fun o => has_page srv o = true) (res_outputs res).
Proof.
  unfold activate. revert log pages.
  induction (res_outputs res) as [|output rest IH]; intros log pages Hrun.
  - injection Hrun as <- <-. reflexivity.
  - simpl in Hrun.
    destruct (activate_output srv res output) as [[log1 page1]|] eqn:Hout;
      [|discriminate].
    simpl in Hrun.
    destruct (activate_outputs srv res rest) as [[log2 pages2]|] eqn:Hrest;
      [|discriminate].
    simpl in Hrun. injection Hrun as <- <-.
    apply activate_output_has_page in Hout.
    rewrite filter_cons, fmap_app, (IH _ _ eq_refl).
    destruct page1 as [p|].
    + destruct Hout as [Hpage Hdata]. rewrite decide_True by assumption.
      simpl. rewrite Hdata. reflexivity.
    + rewrite decide_False by congruence. reflexivity.
Qed.

Lemma X10_witness :
  (exists log pages,
     activate sample_server sample_res = Some (log, pages)
     /\ page_user_data <$> pages = [66; 68])
  /\ (exists log pages,
        activate unknown_connection_server
                 {| res_outputs := [70]; res_modes := [mode_1080p] |}
        = Some (log, pages)
        /\ page_user_data <$> pages = [70]).
Proof.
  split.
  - destruct (activate sample_server sample_res) as [[log pages]|] eqn:Hrun;
      [|vm_compute in Hrun; discriminate].
    exists log, pages. split; [reflexivity|].
    rewrite (X10_activate_pages _ _ _ _ Hrun). vm_compute. reflexivity.
  - destruct (activate unknown_connection_server
                {| res_outputs := [70]; res_modes := [mode_1080p] |})
      as [[log pages]|] eqn:Hrun; [|vm_compute in Hrun; discriminate].
    exists log, pages. split; [reflexivity|].
    rewrite (X10_activate_pages _ _ _ _ Hrun). vm_compute. reflexivity.
Defined.

(** X11. The length of the identification block is not checked before it
    is decoded: for an output that gets a page and whose property has the
    integer type, the format 8 and between 1 and 127 bytes, [activate]
    passes the block to [parseedid], which reads past its end. *)
Theorem X11_short_block_is_decoded (srv : Server)
    (res : XRRScreenResources) (output : XID) (p : Property) :
  has_page srv output = true ->
  srv_edid srv !! output = Some p ->
  prop_type p = XA_INTEGER -> prop_format p = 8 ->
  (0 < length (prop_items p) < 128)%nat ->
  output_edid_get srv output = Some (prop_items p)
  /\ output_modelname srv output = None
  /\ activate_output srv res output = None.
Proof.
  intros Hpage Hprop Htype Hformat Hlen.
  assert (Hget : output_edid_get srv output = Some (prop_items p)).
  { unfold output_edid_get, XRRGetOutputProperty. rewrite Hprop.
    cbn [prop_type prop_format prop_items].
    rewrite take_ge by lia. rewrite Htype, Hformat.
    destruct (Z.leb_spec 1 (Z.of_nat (length (prop_items p)))); [|lia].
    reflexivity. }
  assert (Hname : output_modelname srv output = None).
  { unfold output_modelname. rewrite Hget.
    unfold parseedid. rewrite for_each_checksum_short by lia.
    reflexivity. }
  split; [exact Hget|]. split; [exact Hname|].
  unfold activate_output. unfold has_page in Hpage.
  destruct (XRRGetOutputInfo srv output) as [output_info|]; [|discriminate].
  simpl.
  destruct (connection output_info =? RR_Disconnected); [discriminate|].
  destruct (crtc output_info =? None_XID); [discriminate|].
  destruct (XRRGetCrtcInfo srv (crtc output_info)).
  - rewrite Hname. reflexivity.
  - simpl in Hpage. discriminate.
Qed.

Lemma X11_witness :
  activate short_edid_server sample_res = None.
Proof.
  destruct (X11_short_block_is_decoded short_edid_server sample_res 66
              {| prop_type := XA_INTEGER; prop_format := 8;
                 prop_items := take 64 edid_ABC |})
    as (_ & _ & H);
    [ vm_compute; reflexivity | vm_compute; reflexivity | reflexivity
    | reflexivity | vm_compute; lia |].
  unfold activate. cbn [res_outputs sample_res activate_outputs].
  rewrite H. reflexivity.
Defined.

(** ** From the catalogue to the switch *)

(** X12. The rows of a catalogue whose identifiers are below 2^31 lead
    back to their modes: for each row of the catalogue built for an
    output, [row_activated] requests a mode that the output advertised and
    that the global mode table resolves, so no other mode is ever
    requested through the list. The catalogue is built from a table of
    modes with [unsigned int] totals and names without conversion
    specification. *)
Theorem X12_requested_mode_is_advertised (w : World)
    (res : XRRScreenResources) (output : XID)
    (listed current : XRROutputInfo) :
  Forall mode_well_formed (res_modes res) ->
  0 <= npreferred listed < 2 ^ 31 ->
  Forall (fun xid => 0 <= xid < 2 ^ 31) (modes listed) ->
  XRRGetOutputInfo (server w) output = Some current ->
  exists rows,
    build_catalog res listed = Some rows
    /\ forall (path : nat) row, rows !! path = Some row ->
         exists w' xid,
           row_activated w rows path output = Some w'
           /\ calls w' = calls w ++
                [CallGetOutputInfo output;
                 CallSetCrtcConfig (crtc current) CurrentTime 0 0 xid
                                   RR_Rotate_0 [output]]
           /\ xid ∈ modes listed
           /\ is_Some (find_mode_by_xid res xid).
Proof.
  intros Hrange Hpref Hids Hinfo.
  destruct (build_catalog_spec res listed Hrange Hpref)
    as (rows & Hrun & Hrows).
  exists rows. split; [exact Hrun|].
  intros path row Hrow.
  destruct (Forall2_lookup_l _ _ _ _ _ Hrows Hrow)
    as ([[n xid] mode_info] & Hentry & Hpresents).
  destruct Hpresents as (Hcell & _).
  apply list_elem_of_lookup_2 in Hentry.
  apply resolved_from_lookup in Hentry as (_ & Hn & Hfind).
  rewrite Nat.sub_0_r in Hn.
  assert (Hxid : 0 <= xid < 2 ^ 31).
  { rewrite Forall_forall in Hids. apply Hids.
    apply (list_elem_of_lookup_2 _ n). exact Hn. }
  unfold row_activated. rewrite Hrow, Hinfo. simpl.
  rewrite Hcell, ulong_of_int_of_ulong by exact Hxid.
  destruct (XRRSetCrtcConfig (server w) (crtc current) CurrentTime 0 0 xid
              RR_Rotate_0 [output]) as [status srv'].
  eexists. exists xid. split; [reflexivity|]. split; [reflexivity|]. split.
  - apply (list_elem_of_lookup_2 _ n). exact Hn.
  - rewrite Hfind. eexists. reflexivity.
Qed.

Lemma X12_witness :
  exists rows,
    build_catalog sample_res sample_output_66 = Some rows
    /\ exists w',
         row_activated sample_world rows 2 66 = Some w'
         /\ calls w' =
              [CallGetOutputInfo 66;
               CallSetCrtcConfig 63 CurrentTime 0 0 0x49 RR_Rotate_0 [66]].
Proof.
  destruct (X12_requested_mode_is_advertised sample_world sample_res 66
              sample_output_66 sample_output_66)
    as (rows & Hrun & Hrow);
    [ repeat constructor; vm_compute; discriminate
    | vm_compute; split; [discriminate | reflexivity]
    | repeat constructor; vm_compute; discriminate
    | vm_compute; reflexivity |].
  exists rows. split; [exact Hrun|].
  vm_compute in Hrun. injection Hrun as <-.
  eexists. split; vm_compute; reflexivity.
Defined.

(** ** [mode_refresh]: the flags scale the rate *)

Lemma shr_fexp_shift q e k l :
  -1022 <= e -> -1022 <= e + k ->
  shr_fexp 53 1024 (Z.pos q) (e + k) l
  = (fst (shr_fexp 53 1024 (Z.pos q) e l),
     snd (shr_fexp 53 1024 (Z.pos q) e l) + k).
Proof.
  intros He Hk. unfold shr_fexp. simpl Zdigits2.
  rewrite !fexp_53 by lia.
  replace (Z.pos (digits2_pos q) + (e + k) - 53 - (e + k))
    with (Z.pos (digits2_pos q) - 53) by lia.
  replace (Z.pos (digits2_pos q) + e - 53 - e)
    with (Z.pos (digits2_pos q) - 53) by lia.
  unfold shr. destruct (Z.pos (digits2_pos q) - 53); simpl; f_equal; lia.
Qed.

Lemma shr_fexp_value q e l :
  -1022 <= e ->
  snd (shr_fexp 53 1024 (Z.pos q) e l)
    = e + Z.max (Z.pos (digits2_pos q) - 53) 0
  /\ shr_m (fst (shr_fexp 53 1024 (Z.pos q) e l))
     = Z.pos q / 2 ^ Z.max (Z.pos (digits2_pos q) - 53) 0.
Proof.
  intros He. unfold shr_fexp. simpl Zdigits2. rewrite fexp_53 by lia.
  replace (Z.pos (digits2_pos q) + e - 53 - e)
    with (Z.pos (digits2_pos q) - 53) by lia.
  assert (Hrec : shr_m (shr_record_of_loc (Z.pos q) l) = Z.pos q)
    by (destruct l as [|[]]; reflexivity).
  unfold shr. destruct (Z.pos (digits2_pos q) - 53) as [|n|n] eqn:En; simpl fst; simpl snd.
  - rewrite Hrec. simpl. rewrite Z.div_1_r. split; lia.
  - rewrite iter_pos_shr_1_m, Hrec by lia.
    replace (Z.max (Z.pos n) 0) with (Z.pos n) by lia. split; [lia | reflexivity].
  - rewrite Hrec. replace (Z.max (Z.neg n) 0) with 0 by lia.
    simpl. rewrite Z.div_1_r. split; lia.
Qed.

Lemma digits2_pos_le p n :
  0 <= n -> Z.pos p <= 2 ^ n -> Z.pos (digits2_pos p) <= n + 1.
Proof.
  intros Hn Hp. pose proof (digits2_pos_bounds p) as [Hlo _].
  destruct (Z.le_gt_cases (Z.pos (digits2_pos p)) (n + 1)) as [|Hgt]; [assumption|].
  assert (2 ^ (n + 1) <= 2 ^ (Z.pos (digits2_pos p) - 1))
    by (apply Z.pow_le_mono_r; lia).
  assert (2 ^ n < 2 ^ (n + 1)) by (apply Z.pow_lt_mono_r; lia).
  lia.
Qed.

Lemma digits2_pos_lt p n :
  0 <= n -> Z.pos p < 2 ^ n -> Z.pos (digits2_pos p) <= n.
Proof.
  intros Hn Hp. pose proof (digits2_pos_bounds p) as [Hlo _].
  destruct (Z.le_gt_cases (Z.pos (digits2_pos p)) n) as [|Hgt]; [assumption|].
  assert (2 ^ n <= 2 ^ (Z.pos (digits2_pos p) - 1))
    by (apply Z.pow_le_mono_r; lia).
  lia.
Qed.

Lemma shr_fexp_range q e l :
  -1022 <= e ->
  0 < shr_m (fst (shr_fexp 53 1024 (Z.pos q) e l)) < 2 ^ 53.
Proof.
  intros He. destruct (shr_fexp_value q e l He) as [_ Hm]. rewrite Hm.
  pose proof (digits2_pos_bounds q) as [Hlo Hhi].
  destruct (Z.le_gt_cases (Z.pos (digits2_pos q)) 53) as [Hd | Hd].
  - replace (Z.max (Z.pos (digits2_pos q) - 53) 0) with 0 by lia.
    simpl. rewrite Z.div_1_r. split; [lia|].
    assert (2 ^ Z.pos (digits2_pos q) <= 2 ^ 53) by (apply Z.pow_le_mono_r; lia).
    lia.
  - replace (Z.max (Z.pos (digits2_pos q) - 53) 0) with (Z.pos (digits2_pos q) - 53) by lia.
    set (n := Z.pos (digits2_pos q) - 53) in *.
    assert (Hpow : 2 ^ Z.pos (digits2_pos q) = 2 ^ 53 * 2 ^ n).
    { rewrite <- Z.pow_add_r by lia. f_equal. lia. }
    assert (Hn : 0 < 2 ^ n) by (apply Z.pow_pos_nonneg; lia).
    split.
    + apply Z.div_str_pos. split; [lia|].
      assert (2 ^ n <= 2 ^ (Z.pos (digits2_pos q) - 1)) by (apply Z.pow_le_mono_r; lia).
      lia.
    + apply Z.div_lt_upper_bound; [lia|]. lia.
Qed.

Lemma round_nearest_even_range m l :
  m <= round_nearest_even m l <= m + 1.
Proof.
  unfold round_nearest_even. destruct l as [|[]]; try lia.
  destruct (Z.even m); lia.
Qed.

(** The rounding of a positive mantissa away from the subnormal range and
    from overflow: a finite number, its exponent within two steps. *)
Lemma binary_round_aux_finite s q e l :
  -1022 <= e -> e + Z.max (Z.pos (digits2_pos q) - 53) 0 + 1 <= 971 ->
  exists m r,
    binary_round_aux 53 1024 s (Z.pos q) e l = S754_finite s m r
    /\ e + Z.max (Z.pos (digits2_pos q) - 53) 0 <= r
       <= e + Z.max (Z.pos (digits2_pos q) - 53) 0 + 1
    /\ Z.pos (digits2_pos m) <= 54.
Proof.
  intros He Hov. unfold binary_round_aux.
  destruct (shr_fexp_value q e l He) as [He' _].
  pose proof (shr_fexp_range q e l He) as Hm'.
  destruct (shr_fexp 53 1024 (Z.pos q) e l) as [mrs' e']. simpl in He', Hm'.
  pose proof (round_nearest_even_range (shr_m mrs') (loc_of_shr_record mrs')) as Hr.
  destruct (round_nearest_even (shr_m mrs') (loc_of_shr_record mrs')) as [|q'|q'];
    try lia.
  assert (Hq' : Z.pos (digits2_pos q') <= 54) by (apply (digits2_pos_le q' 53); lia).
  destruct (shr_fexp_value q' e' loc_Exact ltac:(lia)) as [He'' Hm''].
  pose proof (shr_fexp_range q' e' loc_Exact ltac:(lia)) as Hrange''.
  destruct (shr_fexp 53 1024 (Z.pos q') e' loc_Exact) as [mrs'' e''].
  simpl in He'', Hm'', Hrange''.
  destruct (shr_m mrs'') as [|m|m]; try lia.
  destruct (Z.leb_spec e'' (1024 - 53)); [|lia].
  exists m, e''. split; [reflexivity|]. split; [lia|].
  pose proof (digits2_pos_lt m 53 ltac:(lia) ltac:(lia)). lia.
Qed.

Lemma binary_round_aux_scale s q e k l m r :
  -1022 <= e -> -1022 <= e + k ->
  binary_round_aux 53 1024 s (Z.pos q) e l = S754_finite s m r ->
  r + k <= 971 ->
  binary_round_aux 53 1024 s (Z.pos q) (e + k) l = S754_finite s m (r + k).
Proof.
  intros He Hk Hres Hov. unfold binary_round_aux in *.
  rewrite shr_fexp_shift by lia.
  destruct (shr_fexp_value q e l He) as [He' _].
  pose proof (shr_fexp_range q e l He) as Hm'.
  destruct (shr_fexp 53 1024 (Z.pos q) e l) as [mrs' e']. simpl in He', Hm'.
  simpl fst. simpl snd.
  pose proof (round_nearest_even_range (shr_m mrs') (loc_of_shr_record mrs')) as Hr.
  destruct (round_nearest_even (shr_m mrs') (loc_of_shr_record mrs')) as [|q'|q'];
    try lia.
  rewrite shr_fexp_shift by lia.
  destruct (shr_fexp 53 1024 (Z.pos q') e' loc_Exact) as [mrs'' e''].
  simpl fst. simpl snd.
  destruct (shr_m mrs'') as [|m0|m0]; try discriminate.
  destruct (Z.leb_spec e'' (1024 - 53)); [|discriminate].
  injection Hres as -> ->.
  destruct (Z.leb_spec (r + k) (1024 - 53)); [reflexivity | lia].
Qed.

Lemma SFdiv_core_binary_spec m1 e1 m2 e2 :
  -1021 <= Z.pos (digits2_pos m1) + e1 - (Z.pos (digits2_pos m2) + e2) ->
  exists q l,
    SFdiv_core_binary 53 1024 (Z.pos m1) e1 (Z.pos m2) e2
    = (Z.pos q,
       Z.min (Z.pos (digits2_pos m1) + e1 - (Z.pos (digits2_pos m2) + e2) - 53)
             (e1 - e2),
       l)
    /\ Z.pos (digits2_pos q)
       <= Z.pos (digits2_pos m1) + (e1 - e2)
          - Z.min (Z.pos (digits2_pos m1) + e1 - (Z.pos (digits2_pos m2) + e2) - 53)
                  (e1 - e2).
Proof.
  intros Hc. unfold SFdiv_core_binary, Zdigits2.
  rewrite fexp_53 by lia.
  set (d1 := Z.pos (digits2_pos m1)) in *.
  set (d2 := Z.pos (digits2_pos m2)) in *.
  set (e' := Z.min (d1 + e1 - (d2 + e2) - 53) (e1 - e2)).
  remember (e1 - e2 - e') as s eqn:Es.
  assert (Hs : 0 <= s) by (unfold e' in Es; lia).
  assert (Hs2 : d2 - d1 + 53 <= s) by (unfold e' in Es; lia).
  remember (match s with
            | 0 => Z.pos m1
            | Z.pos _ => Z.shiftl (Z.pos m1) s
            | Z.neg _ => 0
            end) as m' eqn:Em'.
  assert (Hm' : m' = Z.pos m1 * 2 ^ s).
  { rewrite Em'. destruct s as [|p|p]; try lia.
    rewrite Z.shiftl_mul_pow2 by lia. reflexivity. }
  clear Em'.
  pose proof (digits2_pos_bounds m1) as [Hlo1 Hhi1].
  pose proof (digits2_pos_bounds m2) as [Hlo2 Hhi2].
  fold d1 in Hlo1, Hhi1. fold d2 in Hlo2, Hhi2.
  assert (Hps : 0 < 2 ^ s) by (apply Z.pow_pos_nonneg; lia).
  assert (Hup : m' < 2 ^ (d1 + s)).
  { rewrite Hm', Z.pow_add_r by (unfold d1; lia). nia. }
  assert (Hge : Z.pos m2 <= m').
  { assert (2 ^ d2 <= 2 ^ (d1 - 1 + s)) by (apply Z.pow_le_mono_r; lia).
    assert (2 ^ (d1 - 1 + s) = 2 ^ (d1 - 1) * 2 ^ s)
      by (apply Z.pow_add_r; unfold d1; lia).
    rewrite Hm'. nia. }
  pose proof (Z_div_mod m' (Z.pos m2) ltac:(lia)) as Hdiv.
  destruct (Z.div_eucl m' (Z.pos m2)) as [q r]. destruct Hdiv as [Heq Hr].
  assert (Hq : 1 <= q <= m') by nia.
  destruct q as [|q|q]; try lia.
  exists q, (new_location (Z.pos m2) r). split; [reflexivity|].
  fold e'. replace (d1 + (e1 - e2) - e') with (d1 + s) by lia.
  apply digits2_pos_lt; [unfold d1; lia | lia].
Qed.

Lemma SFdiv_core_binary_shift m1 e1 m2 e2 k :
  -1021 <= Z.pos (digits2_pos m1) + e1 - (Z.pos (digits2_pos m2) + e2) ->
  -1021 <= Z.pos (digits2_pos m1) + e1 - (Z.pos (digits2_pos m2) + (e2 + k)) ->
  SFdiv_core_binary 53 1024 (Z.pos m1) e1 (Z.pos m2) (e2 + k)
  = (let '(q, e', l) := SFdiv_core_binary 53 1024 (Z.pos m1) e1 (Z.pos m2) e2
     in (q, e' - k, l)).
Proof.
  intros H1 H2. unfold SFdiv_core_binary, Zdigits2.
  rewrite !fexp_53 by lia.
  set (d1 := Z.pos (digits2_pos m1)) in *.
  set (d2 := Z.pos (digits2_pos m2)) in *.
  replace (Z.min (d1 + e1 - (d2 + (e2 + k)) - 53) (e1 - (e2 + k)))
    with (Z.min (d1 + e1 - (d2 + e2) - 53) (e1 - e2) - k) by lia.
  replace (e1 - (e2 + k) - (Z.min (d1 + e1 - (d2 + e2) - 53) (e1 - e2) - k))
    with (e1 - e2 - Z.min (d1 + e1 - (d2 + e2) - 53) (e1 - e2)) by lia.
  destruct (Z.div_eucl _ (Z.pos m2)) as [q r]. reflexivity.
Qed.

(** Dividing by a divisor scaled by [2^k] scales the quotient by
    [2^-k]. *)
Lemma ddiv_scale sc mc ec sd md ed k :
  Z.pos (digits2_pos mc) <= 54 -> Z.pos (digits2_pos md) <= 54 ->
  -200 <= ec <= 200 -> -200 <= ed <= 200 -> -2 <= k <= 2 ->
  ddiv (S754_finite sc mc ec) (S754_finite sd md (ed + k))
  = double_scale (- k) (ddiv (S754_finite sc mc ec) (S754_finite sd md ed)).
Proof.
  intros Hdc Hdd Hec Hed Hk. unfold ddiv, SFdiv.
  pose proof (Pos2Z.is_pos (digits2_pos mc)).
  pose proof (Pos2Z.is_pos (digits2_pos md)).
  rewrite SFdiv_core_binary_shift by lia.
  destruct (SFdiv_core_binary_spec mc ec md ed ltac:(lia)) as (q & l & Hcore & Hq).
  rewrite Hcore.
  set (e' := Z.min (Z.pos (digits2_pos mc) + ec - (Z.pos (digits2_pos md) + ed) - 53)
                   (ec - ed)) in *.
  pose proof (Pos2Z.is_pos (digits2_pos q)).
  destruct (binary_round_aux_finite (xorb sc sd) q e' l) as (m & r & Hres & Hr & _);
    [unfold e'; lia | unfold e' in *; lia |].
  rewrite Hres. simpl double_scale.
  replace (e' - k) with (e' + - k) by lia.
  apply binary_round_aux_scale; [unfold e'; lia | unfold e'; lia | exact Hres |].
  unfold e' in *. lia.
Qed.

Lemma dmul_scale s1 m1 e1 s2 m2 e2 k :
  Z.pos (digits2_pos m1) <= 54 -> Z.pos (digits2_pos m2) <= 54 ->
  -200 <= e1 <= 200 -> -200 <= e2 <= 200 -> -2 <= k <= 2 ->
  dmul (S754_finite s1 m1 e1) (S754_finite s2 m2 (e2 + k))
  = double_scale k (dmul (S754_finite s1 m1 e1) (S754_finite s2 m2 e2))
  /\ exists m r, dmul (S754_finite s1 m1 e1) (S754_finite s2 m2 e2)
                 = S754_finite (xorb s1 s2) m r
                 /\ Z.pos (digits2_pos m) <= 54
                 /\ e1 + e2 <= r <= e1 + e2 + 56.
Proof.
  intros Hd1 Hd2 He1 He2 Hk. unfold dmul, SFmul.
  assert (Hd : Z.pos (digits2_pos (m1 * m2)) <= 108).
  { apply digits2_pos_lt; [lia|].
    pose proof (digits2_pos_bounds m1) as [_ Hh1].
    pose proof (digits2_pos_bounds m2) as [_ Hh2].
    assert (2 ^ Z.pos (digits2_pos m1) <= 2 ^ 54) by (apply Z.pow_le_mono_r; lia).
    assert (2 ^ Z.pos (digits2_pos m2) <= 2 ^ 54) by (apply Z.pow_le_mono_r; lia).
    change (2 ^ 108) with (2 ^ 54 * 2 ^ 54). rewrite Pos2Z.inj_mul.
    assert (0 < 2 ^ 54) by lia. nia. }
  pose proof (Pos2Z.is_pos (digits2_pos (m1 * m2))).
  destruct (binary_round_aux_finite (xorb s1 s2) (m1 * m2) (e1 + e2) loc_Exact)
    as (m & r & Hres & Hr & Hm); [lia | lia |].
  split.
  - rewrite Hres. simpl double_scale.
    replace (e1 + (e2 + k)) with (e1 + e2 + k) by lia.
    apply binary_round_aux_scale; [lia | lia | exact Hres | lia].
  - exists m, r. split; [exact Hres|]. split; [exact Hm | lia].
Qed.

Lemma double_of_Z_ulong v :
  0 < v < 2 ^ 64 ->
  exists m e, double_of_Z v = S754_finite false m e
              /\ Z.pos (digits2_pos m) <= 54 /\ -52 <= e <= 12.
Proof.
  intros Hv. destruct (Z.lt_ge_cases v (2 ^ 53)) as [Hsmall | Hbig].
  - destruct (double_of_Z_normal v) as (m & e & Hd & Hm & He); [lia|].
    exists m, e. split; [exact Hd|]. rewrite Hm. split; lia.
  - destruct v as [|p|p]; try lia.
    pose proof (digits2_pos_bounds p) as [Hlo Hhi].
    assert (Hd64 : Z.pos (digits2_pos p) <= 64) by (apply digits2_pos_lt; lia).
    assert (Hd54 : 54 <= Z.pos (digits2_pos p)).
    { destruct (Z.lt_ge_cases (Z.pos (digits2_pos p)) 54) as [Hlt|]; [|assumption].
      assert (2 ^ Z.pos (digits2_pos p) <= 2 ^ 53) by (apply Z.pow_le_mono_r; lia).
      lia. }
    unfold double_of_Z, binary_normalize, binary_round.
    rewrite fexp_53 by lia. unfold shl_align.
    destruct (Z.pos (digits2_pos p) + 0 - 53 - 0) as [|k|k] eqn:Ek; try lia.
    destruct (binary_round_aux_finite false p 0 loc_Exact) as (m & r & Hres & Hr & Hm);
      [lia | lia |].
    exists m, r. split; [exact Hres|]. split; [exact Hm | lia].
Qed.

(** X13. Doublescan halves and interlace doubles the refresh rate, with
    no rounding: for clock and totals in the ranges of their C types, the
    rate of a doublescan mode is the rate of the plain mode with its
    exponent lowered by one, and the rate of an interlaced mode is that
    rate with its exponent raised by one. *)
Theorem X13_flags_scale_refresh (m1 m2 : XRRModeInfo) :
  dotClock m1 = dotClock m2 -> hTotal m1 = hTotal m2 ->
  vTotal m1 = vTotal m2 ->
  0 <= dotClock m2 < 2 ^ 64 -> 0 <= hTotal m2 < 2 ^ 32 ->
  0 <= vTotal m2 < 2 ^ 32 ->
  flag_set (modeFlags m2) RR_DoubleScan = false ->
  flag_set (modeFlags m2) RR_Interlace = false ->
  exists rate,
    mode_refresh m2 = Some rate
    /\ (flag_set (modeFlags m1) RR_DoubleScan = true ->
        flag_set (modeFlags m1) RR_Interlace = false ->
        mode_refresh m1 = Some (double_scale (-1) rate))
    /\ (flag_set (modeFlags m1) RR_DoubleScan = false ->
        flag_set (modeFlags m1) RR_Interlace = true ->
        mode_refresh m1 = Some (double_scale 1 rate)).
Proof.
  intros Hc Hh Hv Hclk Hhr Hvr Hd2 Hi2.
  assert (Hzero : forall m, hTotal m = 0 \/ vTotal m = 0 ->
                            mode_refresh m = Some (S754_zero false)).
  { intros m [H0 | H0]; unfold mode_refresh.
    - rewrite H0. reflexivity.
    - rewrite (effective_vTotal_zero _ H0), andb_false_r. reflexivity. }
  destruct (Z.eq_dec (hTotal m2) 0) as [Hh0 | Hh0].
  { exists (S754_zero false). split; [apply Hzero; auto|].
    split; intros _ _; apply Hzero; left; congruence. }
  destruct (Z.eq_dec (vTotal m2) 0) as [Hv0 | Hv0].
  { exists (S754_zero false). split; [apply Hzero; auto|].
    split; intros _ _; apply Hzero; right; congruence. }
  rewrite (mode_refresh_divides m2) by lia.
  eexists. split; [reflexivity|].
  destruct (double_of_Z_uint (hTotal m2)) as (mh & eh & Hdh & Hmh & Heh); [lia|].
  destruct (double_of_Z_uint (vTotal m2)) as (mv & ev & Hdv & Hmv & Hev); [lia|].
  assert (He2 : effective_vTotal m2 = S754_finite false mv ev).
  { unfold effective_vTotal.
    rewrite (flag_set_false _ _ Hd2), (flag_set_false _ _ Hi2). exact Hdv. }
  assert (Hscale : forall k, -1 <= k <= 1 ->
    ddiv (double_of_Z (dotClock m2))
         (dmul (double_of_Z (hTotal m2)) (S754_finite false mv (ev + k)))
    = double_scale (- k)
        (ddiv (double_of_Z (dotClock m2))
              (dmul (double_of_Z (hTotal m2)) (effective_vTotal m2)))).
  { intros k Hk. rewrite He2, Hdh.
    destruct (dmul_scale false mh eh false mv ev k)
      as (Hmul & mp & rp & Hp & Hmp & Hrp); [lia | lia | lia | lia | lia |].
    rewrite Hmul, Hp. simpl double_scale.
    destruct (Z.eq_dec (dotClock m2) 0) as [-> | Hc0]; [reflexivity|].
    destruct (double_of_Z_ulong (dotClock m2)) as (mc & ec & -> & Hmc & Hec);
      [lia|].
    apply ddiv_scale; lia. }
  split.
  - intros Hd1 Hi1. rewrite (mode_refresh_divides m1) by lia.
    rewrite Hc, Hh. f_equal.
    replace (effective_vTotal m1) with (S754_finite false mv (ev + 1)).
    + apply (Hscale 1). lia.
    + unfold effective_vTotal.
      rewrite (flag_set_true _ _ Hd1), (flag_set_false _ _ Hi1), Hv, Hdv.
      symmetry. apply dmul_two; [exact Hmv | lia].
  - intros Hd1 Hi1. rewrite (mode_refresh_divides m1) by lia.
    rewrite Hc, Hh. f_equal.
    replace (effective_vTotal m1) with (S754_finite false mv (ev + -1)).
    + apply (Hscale (-1)). lia.
    + unfold effective_vTotal.
      rewrite (flag_set_false _ _ Hd1), (flag_set_true _ _ Hi1), Hv, Hdv.
      symmetry. replace (ev + -1) with (ev - 1) by lia.
      apply ddiv_two; [exact Hmv | lia].
Qed.

Lemma X13_witness :
  mode_refresh {| mode_id := 0x56; mode_name := "ds"; dotClock := 148500000;
                  hTotal := 2200; vTotal := 1125; modeFlags := 0x25 |}
    = Some (double_of_Z 30)
  /\ mode_refresh {| mode_id := 0x57; mode_name := "il";
                     dotClock := 148500000; hTotal := 2200; vTotal := 1125;
                     modeFlags := 0x15 |}
     = Some (double_of_Z 120).
Proof.
  split.
  - destruct (X13_flags_scale_refresh
                {| mode_id := 0x56; mode_name := "ds"; dotClock := 148500000;
                   hTotal := 2200; vTotal := 1125; modeFlags := 0x25 |}
                mode_1080p) as (rate & Hrate & Hds & _);
      [ reflexivity | reflexivity | reflexivity
      | vm_compute; split; [discriminate | reflexivity]
      | vm_compute; split; [discriminate | reflexivity]
      | vm_compute; split; [discriminate | reflexivity]
      | reflexivity | reflexivity |].
    rewrite Hds by reflexivity.
    vm_compute in Hrate. injection Hrate as <-. vm_compute. reflexivity.
  - destruct (X13_flags_scale_refresh
                {| mode_id := 0x57; mode_name := "il"; dotClock := 148500000;
                   hTotal := 2200; vTotal := 1125; modeFlags := 0x15 |}
                mode_1080p) as (rate & Hrate & _ & Hil);
      [ reflexivity | reflexivity | reflexivity
      | vm_compute; split; [discriminate | reflexivity]
      | vm_compute; split; [discriminate | reflexivity]
      | vm_compute; split; [discriminate | reflexivity]
      | reflexivity | reflexivity |].
    rewrite Hil by reflexivity.
    vm_compute in Hrate. injection Hrate as <-. vm_compute. reflexivity.
Defined.

(** ** The catalogue: where the preferred rows are *)

Lemma preferred_rows_prefix (res : XRRScreenResources) (preferred_count : Z)
    (ids : list XID) : forall (k : nat) (rows : list Row),
  Forall2 (row_presents preferred_count) rows (resolved_from res k ids) ->
  exists a b : nat,
    PREFERRED_COLUMN <$> rows = replicate a true ++ replicate b false
    /\ Z.of_nat a <= Z.max (preferred_count - Z.of_nat k) 0.
Proof.
  induction ids as [|xid rest IH]; intros k rows Hrows; cbn [resolved_from] in Hrows.
  - apply Forall2_nil_inv_r in Hrows as ->. exists 0%nat, 0%nat.
    split; [reflexivity | lia].
  - destruct (find_mode_by_xid res xid) as [mode_info|].
    + apply Forall2_cons_inv_r in Hrows
        as (row & rows' & Hrow & Hrows' & ->).
      destruct (IH (S k) rows' Hrows') as (a & b & Hflags & Ha).
      destruct Hrow as (_ & _ & _ & _ & Hpref).
      rewrite fmap_cons, Hflags.
      destruct (PREFERRED_COLUMN row) eqn:Hp.
      * exists (S a), b. split; [reflexivity|].
        assert (Z.of_nat k < preferred_count) by (apply Hpref; reflexivity).
        lia.
      * assert (Hk : ~ Z.of_nat k < preferred_count).
        { intros Hlt. apply Hpref in Hlt. discriminate. }
        assert (a = 0%nat) as -> by lia.
        exists 0%nat, (S b). split; [reflexivity | lia].
    + destruct (IH (S k) rows Hrows) as (a & b & Hflags & Ha).
      exists a, b. split; [exact Hflags | lia].
Qed.

(** X14. The preferred rows come first: in the catalogue of an output the
    rows marked preferred are a prefix of the list, and there are at most
    [npreferred] of them (fewer when a preferred identifier does not
    resolve). The modes of the table have [unsigned int] totals and names
    without conversion specification. *)
Theorem X14_preferred_rows_first (res : XRRScreenResources)
    (output_info : XRROutputInfo) :
  Forall mode_well_formed (res_modes res) ->
  0 <= npreferred output_info < 2 ^ 31 ->
  exists rows (a b : nat),
    build_catalog res output_info = Some rows
    /\ PREFERRED_COLUMN <$> rows = replicate a true ++ replicate b false
    /\ Z.of_nat a <= npreferred output_info.
Proof.
  intros Hrange Hpref.
  destruct (build_catalog_spec res output_info Hrange Hpref)
    as (rows & Hrun & Hrows).
  destruct (preferred_rows_prefix _ _ _ _ _ Hrows) as (a & b & Hflags & Ha).
  exists rows, a, b. split; [exact Hrun|]. split; [exact Hflags | lia].
Qed.

Lemma X14_witness :
  exists rows (a b : nat),
    build_catalog sample_res sample_output_66 = Some rows
    /\ PREFERRED_COLUMN <$> rows = replicate a true ++ replicate b false
    /\ Z.of_nat a <= 2.
Proof.
  apply (X14_preferred_rows_first sample_res sample_output_66).
  - repeat constructor; vm_compute; discriminate.
  - vm_compute. split; [discriminate | reflexivity].
Defined.

(** ** The catalogue: the name of a mode is a format *)

Lemma for_each_fault {St : Type} (body : nat -> St -> option St)
    (indices : list nat) (n : nat) :
  n ∈ indices -> (forall s, body n s = None) ->
  forall s, for_each body indices s = None.
Proof.
  induction indices as [|i rest IH]; intros Hin Hfault s.
  - inversion Hin.
  - simpl. apply elem_of_cons in Hin as [<- | Hin].
    + rewrite Hfault. reflexivity.
    + destruct (body i s); [|reflexivity]. apply IH; assumption.
Qed.

Lemma catalog_step_extends res output_info (n : nat) (store store' : list Row) :
  catalog_step res output_info n store = Some store' ->
  exists more, store' = store ++ more.
Proof.
  unfold catalog_step.
  destruct (modes output_info !! n) as [xid|]; [|discriminate]. simpl.
  destruct (find_mode_by_xid res xid) as [mode_info|].
  - destruct (asprintf_no_args (mode_name mode_info)); [|discriminate]. simpl.
    destruct (mode_refresh mode_info); [|discriminate]. simpl.
    intros [= <-]. eexists. reflexivity.
  - intros [= <-]. exists []. rewrite app_nil_r. reflexivity.
Qed.

Lemma for_each_catalog_extends res output_info (indices : list nat) :
  forall store out : list Row,
    for_each (catalog_step res output_info) indices store = Some out ->
    exists more, out = store ++ more.
Proof.
  induction indices as [|i rest IH]; intros store out; simpl.
  - intros [= <-]. exists []. rewrite app_nil_r. reflexivity.
  - destruct (catalog_step res output_info i store) as [store'|] eqn:Hstep;
      [|discriminate].
    intros Hrun. destruct (catalog_step_extends _ _ _ _ _ Hstep) as [m1 ->].
    destruct (IH _ _ Hrun) as [m2 ->]. exists (m1 ++ m2).
    rewrite app_assoc. reflexivity.
Qed.

Lemma for_each_catalog_row res output_info (n : nat) xid mode_info
    (indices : list nat) : forall store out : list Row,
  modes output_info !! n = Some xid ->
  find_mode_by_xid res xid = Some mode_info ->
  n ∈ indices ->
  for_each (catalog_step res output_info) indices store = Some out ->
  exists row,
    row ∈ out /\ XID_COLUMN row = int_of_ulong xid
    /\ asprintf_no_args (mode_name mode_info) = Some (NAME_COLUMN row).
Proof.
  induction indices as [|i rest IH]; intros store out Hxid Hfind Hin; simpl.
  - inversion Hin.
  - destruct (catalog_step res output_info i store) as [store'|] eqn:Hstep;
      [|discriminate].
    intros Hrun. apply elem_of_cons in Hin as [<- | Hin].
    + unfold catalog_step in Hstep. rewrite Hxid in Hstep. simpl in Hstep.
      rewrite Hfind in Hstep.
      destruct (asprintf_no_args (mode_name mode_info)) as [text|];
        [|discriminate].
      simpl in Hstep. destruct (mode_refresh mode_info) as [rate|];
        [|discriminate].
      simpl in Hstep. injection Hstep as <-.
      destruct (for_each_catalog_extends _ _ _ _ _ Hrun) as [more ->].
      eexists. split.
      { apply elem_of_app. left. apply elem_of_app. right.
        apply list_elem_of_here. }
      split; reflexivity.
    + apply (IH store' out Hxid Hfind Hin Hrun).
Qed.

(** X15. The name of a mode is used as the format of its own cell: when an
    output advertises an identifier that resolves to a mode whose name
    holds a conversion specification, the building of the catalogue of
    that output is undefined; and in a catalogue that is built, the name
    cell of the row of the identifier holds the formatted name, in which
    each doubled per cent sign has become a single one, so that a name
    without per cent sign is shown as it is. *)
Theorem X15_mode_name_is_the_format (res : XRRScreenResources)
    (output_info : XRROutputInfo) (n : nat) (xid : XID)
    (mode_info : XRRModeInfo) :
  modes output_info !! n = Some xid ->
  find_mode_by_xid res xid = Some mode_info ->
  (no_conversion (mode_name mode_info) = false ->
   build_catalog res output_info = None)
  /\ (forall rows, build_catalog res output_info = Some rows ->
        exists row,
          row ∈ rows /\ XID_COLUMN row = int_of_ulong xid
          /\ asprintf_no_args (mode_name mode_info) = Some (NAME_COLUMN row)
          /\ (percent_free (mode_name mode_info) = true ->
              NAME_COLUMN row = mode_name mode_info)).
Proof.
  intros Hxid Hfind.
  assert (Hn : n ∈ seq 0 (length (modes output_info))).
  { apply elem_of_seq. apply lookup_lt_Some in Hxid. lia. }
  split.
  - intros Hbad. unfold build_catalog. apply (for_each_fault _ _ n Hn).
    intros s. unfold catalog_step. rewrite Hxid. simpl. rewrite Hfind.
    destruct (asprintf_no_args_defined _ (mode_name mode_info) (Nat.le_refl _))
      as [_ Hnone].
    rewrite (Hnone Hbad). reflexivity.
  - intros rows Hrun.
    destruct (for_each_catalog_row res output_info n xid mode_info _ [] rows
                Hxid Hfind Hn Hrun) as (row & Hin & Hcell & Hname).
    exists row. split; [exact Hin|]. split; [exact Hcell|].
    split; [exact Hname|].
    intros Hfree. rewrite (asprintf_no_args_percent_free _ Hfree) in Hname.
    injection Hname as Hname. symmetry. exact Hname.
Qed.

Lemma X15_witness :
  build_catalog format_res output_format = None
  /\ (forall rows, build_catalog format_res output_half = Some rows ->
        exists row, row ∈ rows /\ NAME_COLUMN row = "scale50%"%string).
Proof.
  destruct (X15_mode_name_is_the_format format_res output_format 1%nat 0x61
              mode_format) as [Hbad _]; [reflexivity | reflexivity |].
  destruct (X15_mode_name_is_the_format format_res output_half 0%nat 0x60
              mode_half) as [_ Hgood]; [reflexivity | reflexivity |].
  split; [apply Hbad; reflexivity|].
  intros rows Hrun. destruct (Hgood rows Hrun) as (row & Hin & _ & Hname & _).
  exists row. split; [exact Hin|].
  assert (Htext : asprintf_no_args (mode_name mode_half)
                  = Some "scale50%"%string) by reflexivity.
  rewrite Htext in Hname. injection Hname as Hname. symmetry. exact Hname.
Defined.
